(** * Eye-pressure records: grouping and chart transform

    A shallow embedding of [lib/grouping.ts] (groupRecords, create24hGroup,
    toChartData, formatTime), of [lib/notion.ts] (transformNotionPage,
    fetchAllRecords), of the data loading of [app/page.tsx] (Home) and of
    the axis of [components/PressureChart.tsx] (labelMap, xAxisTicks,
    xAxisTickFormatter), with the properties the design document states
    about them and further ones read off the code.

    Conventions of the embedding.
    - A JavaScript number holding a reading ([left], [right], [average]) is
      an IEEE 754 binary64 value: a primitive [float].
    - The [date] of a record is an ISO string that is only ever read through
      [new Date(r.date).getTime()]; the embedding stores that time value, an
      integer number of milliseconds since the epoch, as a [Z].  Records
      reach the grouping code through [transformNotionPage], which rejects
      every date that does not parse, so the time value always exists.  A
      time value is at most 8.64e15 in magnitude, so the binary64 number
      that holds it holds it exactly.
    - The elapsed minutes of a chart point are computed as the code computes
      them, in binary64: the difference of two time values and its quotient
      by 60000 are rounded to 53 significant bits before [Math.round].
    - A [TypeError] (reading a property of [undefined]) is the [None] of an
      option monad. *)

From Stdlib Require Import ZArith List String Ascii Bool Lia Permutation Sorted.
From Stdlib Require Import PrimFloat.
From Stdlib Require DecimalString DecimalPos DecimalZ.
From Stdlib Require FloatOps SpecFloat Uint63.
Import ListNotations.

Local Open Scope string_scope.
Local Open Scope Z_scope.

(** ** Data model ([types/index.ts]) *)

Record EyePressureRecord := mkRecord {
  id : string;
  name : string;
  date : Z;
  left : float;
  right : float;
  is24h : bool;
  note : string
}.

Inductive GroupType := T24h | Tregular.

Record RecordGroup := mkGroup {
  gid : string;
  title : string;
  type : GroupType;
  records : list EyePressureRecord
}.

Record ChartDataPoint := mkPoint {
  label : string;
  pleft : float;
  pright : float;
  average : float;
  dateStr : Z;
  minutesFromStart : option Z
}.

(** The pages that a database query returns, as far as [lib/notion.ts]
    reads them.  [None] is a property that is [undefined] or [null]. *)
Module Notion.

Record RichText := { plain_text : option string }.
Record DateValue := { start : option string }.
Record DateProperty := { date : option DateValue }.
Record TitleProperty := { title : option (list RichText) }.
Record NumberProperty := { number : option float }.
Record CheckboxProperty := { checkbox : option bool }.
Record RichTextProperty := { rich_text : option (list RichText) }.

Record Properties := {
  Date : option DateProperty;
  Name : option TitleProperty;
  Left : option NumberProperty;
  Right : option NumberProperty;
  is24h : option CheckboxProperty;
  Note : option RichTextProperty
}.

(** A partial page response has no [properties]. *)
Record Page := {
  id : string;
  properties : option Properties
}.

End Notion.

(** ** JavaScript primitives used by the code *)

Inductive Error := TypeError | RangeError.

(** The outcome of a block that may throw. *)
Inductive outcome (A : Type) :=
| Return (a : A)
| Throw (e : Error).

Arguments Return {A} a.
Arguments Throw {A} e.

(** [!s] on a string that may be missing. *)
Definition falsy (s : option string) : bool :=
  match s with
  | None => true
  | Some EmptyString => true
  | Some _ => false
  end.

(** [s || ""] *)
Definition or_empty (s : option string) : string :=
  match s with
  | Some v => if falsy s then "" else v
  | None => ""
  end.

(** [v ?? d] *)
Definition nullish {A : Type} (v : option A) (d : A) : A :=
  match v with
  | Some a => a
  | None => d
  end.

(** [Number.prototype.toString] on an integer-valued number below 1e21 in
    magnitude (every time value is): the decimal digits, with a leading
    minus sign for a negative number. *)
Definition Number_toString (z : Z) : string :=
  DecimalString.NilZero.string_of_int (Z.to_int z).

Fixpoint repeat_char (c : ascii) (n : nat) : string :=
  match n with
  | O => EmptyString
  | S n' => String c (repeat_char c n')
  end.

(** [String.prototype.padStart] with a pad string of one character. *)
Definition padStart (s : string) (targetLength : nat) (c : ascii) : string :=
  repeat_char c (targetLength - String.length s) ++ s.

(** The quotient [n / d] of exact arithmetic, for a positive [d], rounded
    to the nearest integer, a tie going towards plus infinity. *)
Definition Math_round_div (n d : Z) : Z := (2 * n + d) / (2 * d).

(** *** Binary64 arithmetic, as far as the chart transform uses it *)

(** A JavaScript number is an IEEE 754 binary64 number, and an operation
    gives the number of 53 significant bits nearest to the exact result,
    the one with an even significand when two are equally near.  The
    numbers met here, differences of time values and their quotients by
    60000, are far from the least and the greatest exponent, so neither
    overflow nor gradual underflow comes in. *)

(** A finite binary64 number, [mantissa * 2 ^ exponent]. *)
Record binary64 := { mantissa : Z; exponent : Z }.

(** The integer nearest to [n / d], the even one of two that are equally
    near, for [0 <= n] and [0 < d]. *)
Definition round_nearest_even (n d : Z) : Z :=
  let q := n / d in
  let r := n mod d in
  if 2 * r <? d then q
  else if d <? 2 * r then q + 1
  else if Z.even q then q else q + 1.

(** The binary64 number nearest to the integer [x]: [x] itself below 2^53,
    a multiple of the unit in the last place of [x] from there on. *)
Definition double_of_integer (x : Z) : Z :=
  let n := Z.abs x in
  if n <? 2 ^ 53 then x
  else
    let ulp := 2 ^ (Z.log2 n - 52) in
    Z.sgn x * (ulp * round_nearest_even n ulp).

(** [a - b] on two binary64 numbers that hold the integers [a] and [b]. *)
Definition double_sub (a b : Z) : Z := double_of_integer (a - b).

(** [n / d] on binary64 numbers that hold the integers [n] and [d > 0]:
    the quotient rounded to 53 significant bits.  [E] is the binade of the
    quotient, [2 ^ E <= |n| / d < 2 ^ (E + 1)], and [2 ^ (E - 52)] is the
    unit in its last place. *)
Definition double_div (n d : Z) : binary64 :=
  if n =? 0 then {| mantissa := 0; exponent := 0 |}
  else
    let a := Z.abs n in
    let K := Z.log2 d + 1 in
    let E := Z.log2 (a * 2 ^ K / d) - K in
    let s := 52 - E in
    let m :=
      if 0 <=? s then round_nearest_even (a * 2 ^ s) d
      else round_nearest_even a (d * 2 ^ (- s)) in
    {| mantissa := Z.sgn n * m; exponent := - s |}.

(** [Math.round]: the nearest integer, half way cases going up. *)
Definition Math_round (v : binary64) : Z :=
  if 0 <=? exponent v then mantissa v * 2 ^ exponent v
  else (2 * mantissa v + 2 ^ (- exponent v)) / 2 ^ (1 - exponent v).

(** Time arithmetic of the language standard, on time values. *)
Definition msPerMinute : Z := 60000.
Definition msPerHour : Z := 3600000.
Definition msPerDay : Z := 86400000.

Definition Day (t : Z) : Z := t / msPerDay.
Definition HourFromTime (t : Z) : Z := (t / msPerHour) mod 24.
Definition MinFromTime (t : Z) : Z := (t / msPerMinute) mod 60.

(** Day of the month (1..31) of the proleptic Gregorian calendar, from the
    position of a day inside its 400-year cycle (day 0 of a cycle is a
    1st of March). *)
Definition daysPerCycle : Z := 146097.

Definition dateOfCycleDay (doe : Z) : Z :=
  let yoe := (doe - doe / 1460 + doe / 36524 - doe / 146096) / 365 in
  let doy := doe - (365 * yoe + yoe / 4 - yoe / 100) in
  let mp := (5 * doy + 2) / 153 in
  doy - (153 * mp + 2) / 5 + 1.

Definition cycleDay (day : Z) : Z := (day + 719468) mod daysPerCycle.

Definition DateFromTime (t : Z) : Z := dateOfCycleDay (cycleDay (Day t)).

(** ** Binary64 rounding of the elapsed minutes *)

(** *** The rounding *)

Lemma round_nearest_even_near n d :
  0 < d ->
  d * (2 * round_nearest_even n d - 1) <= 2 * n <=
  d * (2 * round_nearest_even n d + 1).
Proof.
  intros Hd. unfold round_nearest_even.
  pose proof (Z.div_mod n d ltac:(lia)) as Hdm.
  pose proof (Z.mod_pos_bound n d Hd) as Hr.
  destruct (Z.ltb_spec (2 * (n mod d)) d);
    [| destruct (Z.ltb_spec d (2 * (n mod d))); [| destruct (Z.even (n / d))]];
    nia.
Qed.

Lemma round_nearest_even_ge n d A :
  0 < d -> A * d <= n -> A <= round_nearest_even n d.
Proof.
  intros Hd H. pose proof (round_nearest_even_near n d Hd). nia.
Qed.

Lemma round_nearest_even_le n d B :
  0 < d -> n <= B * d -> round_nearest_even n d <= B.
Proof.
  intros Hd H. pose proof (round_nearest_even_near n d Hd). nia.
Qed.

Lemma round_nearest_even_mono n n' d :
  0 < d -> n <= n' -> round_nearest_even n d <= round_nearest_even n' d.
Proof.
  intros Hd H.
  pose proof (Z.div_le_mono n n' d Hd H) as Hq.
  destruct (Z.eq_dec (n / d) (n' / d)) as [Heq | Hne].
  - unfold round_nearest_even. rewrite <- Heq.
    pose proof (Z.div_mod n d ltac:(lia)).
    pose proof (Z.div_mod n' d ltac:(lia)).
    assert (n mod d <= n' mod d) by nia.
    destruct (Z.ltb_spec (2 * (n mod d)) d);
      destruct (Z.ltb_spec (2 * (n' mod d)) d);
      destruct (Z.ltb_spec d (2 * (n mod d)));
      destruct (Z.ltb_spec d (2 * (n' mod d)));
      destruct (Z.even (n / d)); lia.
  - apply Z.le_trans with (n / d + 1).
    + apply round_nearest_even_le; [exact Hd |].
      pose proof (Z.div_mod n d ltac:(lia)).
      pose proof (Z.mod_pos_bound n d Hd). nia.
    + apply Z.le_trans with (n' / d); [lia |].
      apply round_nearest_even_ge; [exact Hd |].
      pose proof (Z.div_mod n' d ltac:(lia)).
      pose proof (Z.mod_pos_bound n' d Hd). nia.
Qed.

(** *** [Math.round] *)

Lemma Math_round_mono_mantissa m m' e :
  m <= m' ->
  Math_round {| mantissa := m; exponent := e |} <=
  Math_round {| mantissa := m'; exponent := e |}.
Proof.
  intros H. unfold Math_round. cbn [mantissa exponent].
  destruct (Z.leb_spec 0 e).
  - apply Z.mul_le_mono_nonneg_r; [apply Z.pow_nonneg; lia | exact H].
  - apply Z.div_le_mono; [apply Z.pow_pos_nonneg; lia | lia].
Qed.

Lemma Math_round_shift m e :
  Math_round {| mantissa := 2 * m; exponent := e - 1 |} =
  Math_round {| mantissa := m; exponent := e |}.
Proof.
  unfold Math_round. cbn [mantissa exponent].
  destruct (Z.leb_spec 0 (e - 1)); destruct (Z.leb_spec 0 e); try lia.
  - replace e with (Z.succ (e - 1)) at 2 by lia.
    rewrite Z.pow_succ_r by lia. ring.
  - assert (e = 0) as -> by lia.
    change (2 ^ (- (0 - 1))) with 2. change (2 ^ (1 - (0 - 1))) with 4.
    change (2 ^ 0) with 1. Z.div_mod_to_equations. lia.
  - replace (- (e - 1)) with (Z.succ (- e)) by lia.
    replace (1 - (e - 1)) with (Z.succ (1 - e)) by lia.
    rewrite !Z.pow_succ_r by lia.
    replace (2 * (2 * m) + 2 * 2 ^ (- e)) with (2 * (2 * m + 2 ^ (- e))) by ring.
    apply Z.div_mul_cancel_l; [| lia].
    apply Z.pow_nonzero; lia.
Qed.

Lemma Math_round_mono_exponent m e e' :
  0 <= m -> e <= e' ->
  Math_round {| mantissa := m; exponent := e |} <=
  Math_round {| mantissa := m; exponent := e' |}.
Proof.
  intros Hm He.
  replace e' with (e + Z.of_nat (Z.to_nat (e' - e))) by lia.
  induction (Z.to_nat (e' - e)) as [|k IH].
  - rewrite Z.add_0_r. lia.
  - eapply Z.le_trans; [exact IH |].
    rewrite <- (Math_round_shift m (e + Z.of_nat (S k))).
    replace (e + Z.of_nat (S k) - 1) with (e + Z.of_nat k) by lia.
    apply Math_round_mono_mantissa. lia.
Qed.

(** *** The quotient *)

(** The binade of [n / d] and the significand of the rounded quotient. *)
Definition binade (n d : Z) : Z :=
  Z.log2 (n * 2 ^ (Z.log2 d + 1) / d) - (Z.log2 d + 1).

Definition significand (n d : Z) : Z :=
  if 0 <=? 52 - binade n d
  then round_nearest_even (n * 2 ^ (52 - binade n d)) d
  else round_nearest_even n (d * 2 ^ (- (52 - binade n d))).

Lemma double_div_pos n d :
  0 < n ->
  double_div n d =
  {| mantissa := significand n d; exponent := binade n d - 52 |}.
Proof.
  intros Hn. unfold double_div, significand, binade.
  destruct (Z.eqb_spec n 0); [lia |].
  rewrite (Z.abs_eq n) by lia. rewrite (Z.sgn_pos n) by lia.
  cbv zeta. f_equal; [| lia].
  destruct (_ <=? _); lia.
Qed.

Lemma binade_spec n d :
  0 < n -> 0 < d ->
  let K := Z.log2 d + 1 in
  0 <= binade n d + K /\
  d * 2 ^ (binade n d + K) <= n * 2 ^ K < d * 2 ^ (binade n d + K + 1).
Proof.
  intros Hn Hd K. unfold binade. fold K.
  assert (HK : 0 < K) by (pose proof (Z.log2_nonneg d); lia).
  assert (HdK : d < 2 ^ K).
  { unfold K. replace (Z.log2 d + 1) with (Z.succ (Z.log2 d)) by lia.
    apply Z.log2_spec. exact Hd. }
  assert (HP : 0 < 2 ^ K) by (apply Z.pow_pos_nonneg; lia).
  assert (Hq : 1 <= n * 2 ^ K / d).
  { apply Z.div_le_lower_bound; [exact Hd | nia]. }
  pose proof (Z.log2_spec (n * 2 ^ K / d) ltac:(lia)) as [Hlo Hhi].
  pose proof (Z.log2_nonneg (n * 2 ^ K / d)) as Hl.
  replace (Z.log2 (n * 2 ^ K / d) - K + K) with (Z.log2 (n * 2 ^ K / d)) by lia.
  replace (Z.log2 (n * 2 ^ K / d) + 1) with (Z.succ (Z.log2 (n * 2 ^ K / d)))
    by lia.
  pose proof (Z.div_mod (n * 2 ^ K) d ltac:(lia)).
  pose proof (Z.mod_pos_bound (n * 2 ^ K) d Hd).
  split; [exact Hl |]. split; nia.
Qed.

Lemma binade_mono n n' d :
  0 < n -> n <= n' -> 0 < d -> binade n d <= binade n' d.
Proof.
  intros Hn H Hd. unfold binade.
  assert (0 < 2 ^ (Z.log2 d + 1))
    by (apply Z.pow_pos_nonneg; pose proof (Z.log2_nonneg d); lia).
  apply Z.sub_le_mono_r, Z.log2_le_mono, Z.div_le_mono; [exact Hd | nia].
Qed.

Lemma significand_range n d :
  0 < n -> 0 < d -> 2 ^ 52 <= significand n d <= 2 ^ 53.
Proof.
  intros Hn Hd. pose proof (binade_spec n d Hn Hd) as (HEK & Hlo & Hhi).
  cbv zeta in *. unfold significand.
  set (E := binade n d) in *. set (K := Z.log2 d + 1) in *.
  assert (HK : 0 < K) by (pose proof (Z.log2_nonneg d); lia).
  assert (HP : 0 < 2 ^ K) by (apply Z.pow_pos_nonneg; lia).
  destruct (Z.leb_spec 0 (52 - E)) as [Hs | Hs].
  - (* multiply the bounds by 2 ^ (52 - E) and cancel 2 ^ K *)
    assert (HS : 0 < 2 ^ (52 - E)) by (apply Z.pow_pos_nonneg; lia).
    assert (H1 : 2 ^ (E + K) * 2 ^ (52 - E) = 2 ^ 52 * 2 ^ K).
    { rewrite <- !Z.pow_add_r by lia. f_equal. lia. }
    assert (H2 : 2 ^ (E + K + 1) * 2 ^ (52 - E) = 2 ^ 53 * 2 ^ K).
    { rewrite <- !Z.pow_add_r by lia. f_equal. lia. }
    split.
    + apply round_nearest_even_ge; [exact Hd |].
      apply (Z.mul_le_mono_pos_r _ _ (2 ^ K) HP).
      assert (d * 2 ^ (E + K) * 2 ^ (52 - E) <= n * 2 ^ K * 2 ^ (52 - E))
        by (apply Z.mul_le_mono_nonneg_r; lia).
      nia.
    + apply round_nearest_even_le; [exact Hd |].
      apply (Z.mul_le_mono_pos_r _ _ (2 ^ K) HP).
      assert (n * 2 ^ K * 2 ^ (52 - E) <= d * 2 ^ (E + K + 1) * 2 ^ (52 - E))
        by (apply Z.mul_le_mono_nonneg_r; lia).
      nia.
  - assert (HS : 0 < 2 ^ (- (52 - E))) by (apply Z.pow_pos_nonneg; lia).
    assert (H1 : 2 ^ (E + K) = 2 ^ 52 * 2 ^ (- (52 - E)) * 2 ^ K).
    { rewrite <- !Z.pow_add_r by lia. f_equal. lia. }
    assert (H2 : 2 ^ (E + K + 1) = 2 ^ 53 * 2 ^ (- (52 - E)) * 2 ^ K).
    { rewrite <- !Z.pow_add_r by lia. f_equal. lia. }
    split.
    + apply round_nearest_even_ge; [nia |].
      apply (Z.mul_le_mono_pos_r _ _ (2 ^ K) HP). nia.
    + apply round_nearest_even_le; [nia |].
      apply (Z.mul_le_mono_pos_r _ _ (2 ^ K) HP). nia.
Qed.

Lemma Math_round_double_div_mono n n' d :
  0 <= n -> n <= n' -> 0 < d ->
  Math_round (double_div n d) <= Math_round (double_div n' d).
Proof.
  intros Hn H Hd.
  assert (Hnonneg : forall k, 0 < k -> 0 <= Math_round (double_div k d)).
  { intros k Hk. rewrite (double_div_pos k d Hk).
    pose proof (significand_range k d Hk Hd) as [Hlo _].
    assert (0 < 2 ^ 52) by reflexivity.
    unfold Math_round. cbn [mantissa exponent].
    destruct (Z.leb_spec 0 (binade k d - 52)).
    - apply Z.mul_nonneg_nonneg; [lia | apply Z.pow_nonneg; lia].
    - apply Z.div_pos; [| apply Z.pow_pos_nonneg; lia].
      assert (0 <= 2 ^ (- (binade k d - 52))) by (apply Z.pow_nonneg; lia).
      lia. }
  destruct (Z.eq_dec n 0) as [-> | Hn0].
  - destruct (Z.eq_dec n' 0) as [-> | Hn'0]; [lia |].
    change (Math_round (double_div 0 d)) with 0. apply Hnonneg. lia.
  - assert (Hpos : 0 < n) by lia. assert (Hpos' : 0 < n') by lia.
    rewrite (double_div_pos n d Hpos), (double_div_pos n' d Hpos').
    pose proof (binade_mono n n' d Hpos H Hd) as HE.
    pose proof (significand_range n d Hpos Hd) as [_ Hhi].
    pose proof (significand_range n' d Hpos' Hd) as [Hlo' _].
    destruct (Z.eq_dec (binade n d) (binade n' d)) as [Heq | Hne].
    + rewrite <- Heq. apply Math_round_mono_mantissa.
      unfold significand. rewrite <- Heq.
      destruct (Z.leb_spec 0 (52 - binade n d)).
      * apply round_nearest_even_mono; [exact Hd |].
        apply Z.mul_le_mono_nonneg_r; [apply Z.pow_nonneg; lia | exact H].
      * apply round_nearest_even_mono; [| exact H].
        apply Z.mul_pos_pos; [exact Hd | apply Z.pow_pos_nonneg; lia].
    + eapply Z.le_trans;
        [apply (Math_round_mono_mantissa _ (2 ^ 53)); exact Hhi |].
      change (2 ^ 53) with (2 * 2 ^ 52).
      replace (binade n d - 52) with (binade n d - 51 - 1) by lia.
      rewrite Math_round_shift.
      eapply Z.le_trans;
        [apply (Math_round_mono_exponent _ _ (binade n' d - 52));
         [apply Z.pow_nonneg; lia | lia] |].
      apply Math_round_mono_mantissa. exact Hlo'.
Qed.

(** *** The difference *)

Lemma double_of_integer_small x :
  Z.abs x < 2 ^ 53 -> double_of_integer x = x.
Proof.
  intros H. unfold double_of_integer.
  destruct (Z.ltb_spec (Z.abs x) (2 ^ 53)); [reflexivity | lia].
Qed.

Lemma double_of_integer_large x :
  2 ^ 53 <= x ->
  double_of_integer x =
    2 ^ (Z.log2 x - 52) * round_nearest_even x (2 ^ (Z.log2 x - 52)) /\
  2 ^ Z.log2 x <= double_of_integer x <= 2 ^ (Z.log2 x + 1).
Proof.
  intros H. assert (Hx : 0 < x) by (assert (0 < 2 ^ 53) by reflexivity; lia).
  assert (Heq : double_of_integer x =
                2 ^ (Z.log2 x - 52) * round_nearest_even x (2 ^ (Z.log2 x - 52))).
  { unfold double_of_integer. rewrite (Z.abs_eq x) by lia.
    destruct (Z.ltb_spec x (2 ^ 53)); [lia |].
    rewrite (Z.sgn_pos x) by lia. cbv zeta. lia. }
  split; [exact Heq |]. rewrite Heq.
  assert (HL : 53 <= Z.log2 x)
    by (change 53 with (Z.log2 (2 ^ 53)); now apply Z.log2_le_mono).
  pose proof (Z.log2_spec x Hx) as [Hlo Hhi].
  set (L := Z.log2 x) in *.
  assert (Hu : 0 < 2 ^ (L - 52)) by (apply Z.pow_pos_nonneg; lia).
  assert (H1 : 2 ^ L = 2 ^ 52 * 2 ^ (L - 52)).
  { rewrite <- Z.pow_add_r by lia. f_equal. lia. }
  assert (H2 : 2 ^ (L + 1) = 2 ^ 53 * 2 ^ (L - 52)).
  { rewrite <- Z.pow_add_r by lia. f_equal. lia. }
  replace (Z.succ L) with (L + 1) in Hhi by lia.
  pose proof (round_nearest_even_ge x (2 ^ (L - 52)) (2 ^ 52) Hu ltac:(lia)).
  pose proof (round_nearest_even_le x (2 ^ (L - 52)) (2 ^ 53) Hu ltac:(lia)).
  nia.
Qed.

Lemma double_of_integer_mono x y :
  0 <= x -> x <= y -> 0 <= double_of_integer x <= double_of_integer y.
Proof.
  intros Hx H. assert (H53 : 0 < 2 ^ 53) by reflexivity.
  destruct (Z.lt_ge_cases x (2 ^ 53)) as [Hxs | Hxl].
  - rewrite (double_of_integer_small x) by lia. split; [exact Hx |].
    destruct (Z.lt_ge_cases y (2 ^ 53)) as [Hys | Hyl].
    + rewrite (double_of_integer_small y) by lia. exact H.
    + destruct (double_of_integer_large y Hyl) as [_ [Hlo _]].
      assert (2 ^ 53 <= 2 ^ Z.log2 y).
      { apply Z.pow_le_mono_r; [lia |].
        change 53 with (Z.log2 (2 ^ 53)). now apply Z.log2_le_mono. }
      lia.
  - destruct (double_of_integer_large x Hxl) as [Hex [Hlo Hhi]].
    destruct (double_of_integer_large y ltac:(lia)) as [Hey [Hlo' Hhi']].
    assert (0 <= 2 ^ Z.log2 x) by (apply Z.pow_nonneg; lia).
    split; [lia |].
    pose proof (Z.log2_le_mono x y H) as HL.
    destruct (Z.eq_dec (Z.log2 x) (Z.log2 y)) as [Heq | Hne].
    + rewrite Hex, Hey, <- Heq.
      assert (Hu : 0 < 2 ^ (Z.log2 x - 52)).
      { apply Z.pow_pos_nonneg; [lia |].
        assert (53 <= Z.log2 x)
          by (change 53 with (Z.log2 (2 ^ 53)); now apply Z.log2_le_mono).
        lia. }
      apply Z.mul_le_mono_nonneg_l; [lia |].
      now apply round_nearest_even_mono.
    + assert (2 ^ (Z.log2 x + 1) <= 2 ^ Z.log2 y)
        by (apply Z.pow_le_mono_r; lia).
      lia.
Qed.

(** *** The minutes *)

Definition minutesBetween (date firstTimestamp : Z) : Z :=
  Math_round (double_div (double_sub date firstTimestamp) 60000).

Lemma minutesBetween_mono a b first :
  first <= a -> a <= b ->
  minutesBetween a first <= minutesBetween b first.
Proof.
  intros Ha Hab. unfold minutesBetween, double_sub.
  pose proof (double_of_integer_mono (a - first) (b - first)
                ltac:(lia) ltac:(lia)) as [H0 H1].
  apply Math_round_double_div_mono; [exact H0 | exact H1 | lia].
Qed.

Lemma minutesBetween_exact a first :
  0 <= a - first < 2 ^ 53 ->
  minutesBetween a first = Math_round_div (a - first) 60000.
Proof.
  intros Hx. unfold minutesBetween, double_sub.
  rewrite double_of_integer_small by lia.
  set (x := a - first) in *.
  destruct (Z.eq_dec x 0) as [-> | Hx0]; [reflexivity |].
  assert (Hpos : 0 < x) by lia.
  rewrite (double_div_pos x 60000 Hpos).
  pose proof (binade_spec x 60000 Hpos ltac:(lia)) as (HEK & Hlo & _).
  change (Z.log2 60000 + 1) with 16 in *. cbv zeta in *.
  assert (HE : binade x 60000 <= 37).
  { destruct (Z.le_gt_cases (binade x 60000) 37) as [|Hgt]; [assumption |].
    exfalso.
    assert (2 ^ 54 <= 2 ^ (binade x 60000 + 16))
      by (apply Z.pow_le_mono_r; lia).
    change (2 ^ 16) with 65536 in Hlo. change (2 ^ 54) with 18014398509481984 in *.
    change (2 ^ 53) with 9007199254740992 in *. nia. }
  unfold significand, Math_round, Math_round_div. cbn [mantissa exponent].
  destruct (Z.leb_spec 0 (52 - binade x 60000)); [| lia].
  destruct (Z.leb_spec 0 (binade x 60000 - 52)); [lia |].
  set (s := 52 - binade x 60000) in *.
  replace (- (binade x 60000 - 52)) with s by lia.
  replace (1 - (binade x 60000 - 52)) with (s + 1) by lia.
  pose proof (round_nearest_even_near (x * 2 ^ s) 60000 ltac:(lia)) as Hm.
  set (m := round_nearest_even (x * 2 ^ s) 60000) in *.
  assert (HP : 2 ^ s = 2 * 2 ^ (s - 1)).
  { replace s with (Z.succ (s - 1)) at 1 by lia.
    apply Z.pow_succ_r. lia. }
  assert (HP' : 2 ^ 14 <= 2 ^ (s - 1)) by (apply Z.pow_le_mono_r; lia).
  change (2 ^ 14) with 16384 in HP'.
  rewrite Z.pow_add_r by lia. rewrite HP in *.
  set (P := 2 ^ (s - 1)) in *. change (2 ^ 1) with 2.
  pose proof (Z.div_mod (2 * x + 60000) (2 * 60000) ltac:(lia)) as Hj.
  pose proof (Z.mod_pos_bound (2 * x + 60000) (2 * 60000) ltac:(lia)) as Hjr.
  set (j := (2 * x + 60000) / (2 * 60000)) in *.
  symmetry. apply (Z.div_unique _ _ j (2 * m + 2 * P - 2 * P * 2 * j)); [| ring].
  left. nia.
Qed.

(** ** The option monad: [None] is a thrown [TypeError] *)

Definition bind {A B : Type} (c : option A) (k : A -> option B) : option B :=
  match c with
  | Some a => k a
  | None => None
  end.

Notation "x <- c ;; k" := (bind c (fun x => k))
  (at level 61, c at next level, right associativity).

(** [returns c P]: the computation [c] does not throw, and its result
    satisfies [P]. *)
Definition returns {A : Type} (c : option A) (P : A -> Prop) : Prop :=
  exists a, c = Some a /\ P a.

(** ** [lib/grouping.ts] *)

Definition THIRTY_HOURS_MS : Z := 30 * 60 * 60 * 1000.

(** [new Date(r.date).getTime()] *)
Definition getTime (r : EyePressureRecord) : Z := date r.

(** [[...l].sort((a, b) => getTime a - getTime b)].  The comparator is a
    consistent one, so the result is the stable sort of [l]: [insert] puts
    a record in front of the first record that is not earlier than it, and
    [fold_right] inserts the records of [l] from the last to the first. *)
Fixpoint insert (r : EyePressureRecord) (l : list EyePressureRecord)
  : list EyePressureRecord :=
  match l with
  | [] => [r]
  | x :: xs =>
      if getTime r - getTime x <=? 0 then r :: l else x :: insert r xs
  end.

Definition sortByDate (l : list EyePressureRecord) : list EyePressureRecord :=
  fold_right insert [] l.

Definition title_regular : string := "常规眼压测量".
Definition title_24h_prefix : string := "24小时眼压 - ".

Section Locale.

(** [new Date(s).getTime()] for a string [s] from the database: the host's
    date parser, [None] when the string denotes no instant. *)
Variable Date_parse : string -> option Z.

(** The host's time zone: [LocalTZA t] is the offset, in milliseconds, of
    local time from UTC at the instant [t]. *)
Variable LocalTZA : Z -> Z.

(** [date.toLocaleDateString("zh-CN", {year: "numeric", month: "2-digit",
    day: "2-digit"})], a function of the host's locale data. *)
Variable toLocaleDateString : Z -> string.

Definition LocalTime (t : Z) : Z := t + LocalTZA t.

Definition getHours (t : Z) : Z := HourFromTime (LocalTime t).
Definition getMinutes (t : Z) : Z := MinFromTime (LocalTime t).
Definition getDate (t : Z) : Z := DateFromTime (LocalTime t).

(** The local calendar day of an instant, as a day number. *)
Definition localDay (t : Z) : Z := Day (LocalTime t).

Definition formatDate (d : Z) : string := toLocaleDateString d.

Definition formatTime (d : Z) : string :=
  let hours := padStart (Number_toString (getHours d)) 2 "0" in
  let minutes := padStart (Number_toString (getMinutes d)) 2 "0" in
  hours ++ ":" ++ minutes.

Definition create24hGroup (records : list EyePressureRecord)
  : option RecordGroup :=
  r0 <- nth_error records 0 ;;
  let firstDate := date r0 in
  let title := title_24h_prefix ++ formatDate firstDate in
  Some {| gid := "24h-" ++ Number_toString firstDate;
          title := title;
          type := T24h;
          records := records |}.

(** The [for] loop of [groupRecords], over the records [sorted[i..]] still
    to visit; its state is [groups] and [currentGroup]. *)
Fixpoint scan (rest : list EyePressureRecord) (groups : list RecordGroup)
    (currentGroup : list EyePressureRecord)
  : option (list RecordGroup * list EyePressureRecord) :=
  match rest with
  | [] => Some (groups, currentGroup)
  | r :: rest' =>
      c0 <- nth_error currentGroup 0 ;;
      let timeDiff := getTime r - getTime c0 in
      if timeDiff <=? THIRTY_HOURS_MS
      then scan rest' groups (currentGroup ++ [r])%list
      else
        g <- create24hGroup currentGroup ;;
        scan rest' (groups ++ [g])%list [r]
  end.

Definition groupRecords (records : list EyePressureRecord)
  : option (list RecordGroup) :=
  let records24h := filter (fun r => is24h r) records in
  let regularRecords := filter (fun r => negb (is24h r)) records in
  let groups := [] in
  let groups :=
    if (0 <? List.length regularRecords)%nat
    then
      let sorted := sortByDate regularRecords in
      (groups ++ [{| gid := "regular";
                     title := title_regular;
                     type := Tregular;
                     records := sorted |}])%list
    else groups in
  if (0 <? List.length records24h)%nat
  then
    let sorted := sortByDate records24h in
    s0 <- nth_error sorted 0 ;;
    st <- scan (tl sorted) groups [s0] ;;
    let '(groups, currentGroup) := st in
    if (0 <? List.length currentGroup)%nat
    then
      g <- create24hGroup currentGroup ;;
      Some (groups ++ [g])%list
    else Some groups
  else Some groups.

Definition toChartData (group : RecordGroup) : list ChartDataPoint :=
  match records group with
  | [] => []
  | r0 :: _ =>
      let firstDate := date r0 in
      let firstTimestamp := firstDate in
      map (fun record =>
             let date_ := date record in
             let label :=
               match type group with
               | T24h =>
                   let timeStr := formatTime date_ in
                   if negb (getDate date_ =? getDate firstDate)
                   then "+1 " ++ timeStr
                   else timeStr
               | Tregular => formatDate date_
               end in
             let minutesFromStart :=
               Math_round (double_div (double_sub date_ firstTimestamp) 60000) in
             {| label := label;
                pleft := left record;
                pright := right record;
                average := (left record + right record) / 2;
                dateStr := date record;
                minutesFromStart := Some minutesFromStart |})
          (records group)
  end.


(** ** [lib/notion.ts] *)

(** [props.Date?.date?.start] *)
Definition dateValue (props : Notion.Properties) : option string :=
  d <- Notion.Date props ;; v <- Notion.date d ;; Notion.start v.

(** The body of the [try] block of [transformNotionPage]. *)
Definition transformBody (page : Notion.Page)
  : outcome (option EyePressureRecord) :=
  match Notion.properties page with
  | None => Throw TypeError
  | Some props =>
      if falsy (dateValue props) then Return None
      else
        let name :=
          or_empty (t <- Notion.Name props ;; l <- Notion.title t ;;
                    x <- nth_error l 0 ;; Notion.plain_text x) in
        let left := nullish (n <- Notion.Left props ;; Notion.number n) 0%float in
        let right := nullish (n <- Notion.Right props ;; Notion.number n) 0%float in
        let is24h :=
          nullish (c <- Notion.is24h props ;; Notion.checkbox c) false in
        let note :=
          or_empty (t <- Notion.Note props ;; l <- Notion.rich_text t ;;
                    x <- nth_error l 0 ;; Notion.plain_text x) in
        match s <- dateValue props ;; Date_parse s with
        | None => Throw RangeError
        | Some t =>
            Return (Some {| id := Notion.id page;
                            name := name;
                            date := t;
                            left := left;
                            right := right;
                            is24h := is24h;
                            note := note |})
        end
  end.

(** [transformNotionPage]: the [catch] turns every throw into [null]. *)
Definition transformNotionPage (page : Notion.Page)
  : option EyePressureRecord :=
  match transformBody page with
  | Return r => r
  | Throw _ => None
  end.

(** The loop of [fetchAllRecords] over the results of one response, on the
    [records] gathered so far. *)
Fixpoint pushResults (results : list Notion.Page)
    (records : list EyePressureRecord) : list EyePressureRecord :=
  match results with
  | [] => records
  | page :: results' =>
      let records :=
        match Notion.properties page with
        | Some _ =>
            match transformNotionPage page with
            | Some record => (records ++ [record])%list
            | None => records
            end
        | None => records
        end in
      pushResults results' records
  end.

(** ** Sorting by timestamp *)

Definition chronological (l : list EyePressureRecord) : Prop :=
  StronglySorted (fun a b => date a <= date b) l.

Lemma chronological_cons r l :
  chronological (r :: l) <->
  Forall (fun x => date r <= date x) l /\ chronological l.
Proof.
  unfold chronological. split.
  - intros H. apply StronglySorted_inv in H. tauto.
  - intros [H1 H2]. now constructor.
Qed.

Lemma chronological_app l1 l2 :
  chronological (l1 ++ l2) <->
  chronological l1 /\ chronological l2 /\
  (forall a b, In a l1 -> In b l2 -> date a <= date b).
Proof.
  induction l1 as [|x l1 IH]; simpl.
  - split.
    + intros H. repeat split; [constructor | exact H | contradiction].
    + tauto.
  - rewrite !chronological_cons, IH, Forall_app, !Forall_forall. split.
    + intros [[Ha Hb] [Hc [Hd He]]]. repeat split; auto.
      intros a b [<- | Hin] Hb'; auto.
    + intros [[Ha Hb] [Hc Hd]]. repeat split; auto.
Qed.

Lemma insert_perm r l : Permutation (insert r l) (r :: l).
Proof.
  induction l as [|x xs IH]; simpl.
  - reflexivity.
  - destruct (getTime r - getTime x <=? 0).
    + reflexivity.
    + rewrite IH. apply perm_swap.
Qed.

Lemma sortByDate_perm l : Permutation (sortByDate l) l.
Proof.
  induction l as [|x xs IH]; simpl.
  - constructor.
  - rewrite insert_perm. now constructor.
Qed.

Lemma insert_chronological r l :
  chronological l -> chronological (insert r l).
Proof.
  induction l as [|x xs IH]; simpl; intros Hl.
  - apply chronological_cons. split; constructor.
  - unfold getTime. destruct (Z.leb_spec (date r - date x) 0) as [Hle | Hgt].
    + apply chronological_cons. split; [| exact Hl].
      apply chronological_cons in Hl. destruct Hl as [Hx _].
      constructor; [lia |].
      eapply Forall_impl; [| exact Hx]. simpl. intros; lia.
    + apply chronological_cons in Hl. destruct Hl as [Hx Hxs].
      apply chronological_cons. split; [| now apply IH].
      rewrite Forall_forall. intros y Hy.
      apply (Permutation_in _ (insert_perm r xs)) in Hy.
      destruct Hy as [<- | Hy]; [lia |].
      rewrite Forall_forall in Hx. now apply Hx.
Qed.

Lemma sortByDate_chronological l : chronological (sortByDate l).
Proof.
  induction l as [|x xs IH]; simpl.
  - constructor.
  - now apply insert_chronological.
Qed.

(** The sort is stable: records with the same timestamp keep the order
    they have in the input. *)
Lemma insert_stable t r l :
  chronological l ->
  filter (fun x => date x =? t) (insert r l) =
  filter (fun x => date x =? t) (r :: l).
Proof.
  induction l as [|x xs IH]; intros Hl.
  - reflexivity.
  - simpl insert. unfold getTime.
    destruct (Z.leb_spec (date r - date x) 0) as [Hle | Hgt]; [reflexivity |].
    apply chronological_cons in Hl. destruct Hl as [Hx Hxs].
    specialize (IH Hxs). simpl in *. rewrite IH.
    destruct (Z.eqb_spec (date r) t) as [Hr | Hr];
      destruct (Z.eqb_spec (date x) t) as [Hxt | Hxt]; try reflexivity.
    lia.
Qed.

Lemma sortByDate_stable t l :
  filter (fun x => date x =? t) (sortByDate l) =
  filter (fun x => date x =? t) l.
Proof.
  induction l as [|x xs IH]; [reflexivity |].
  simpl sortByDate. rewrite insert_stable by apply sortByDate_chronological.
  simpl. now rewrite IH.
Qed.

Lemma sortByDate_nonempty l :
  l <> [] -> exists s0 rest, sortByDate l = s0 :: rest.
Proof.
  intros Hl. destruct (sortByDate l) as [|s0 rest] eqn:E.
  - pose proof (sortByDate_perm l) as P. rewrite E in P.
    apply Permutation_nil in P. contradiction.
  - eauto.
Qed.

(** ** The grouping engine *)

Definition is_24h_group (g : RecordGroup) : bool :=
  match type g with
  | T24h => true
  | Tregular => false
  end.

(** Every record lies in the window of thirty hours that the first record
    of the list opens. *)
Definition windowed (l : list EyePressureRecord) : Prop :=
  exists first,
    hd_error l = Some first /\
    Forall (fun r => 0 <= date r - date first <= THIRTY_HOURS_MS) l.

(** The first record of [g2] is more than thirty hours later than the
    first record of [g1]. *)
Definition apart (g1 g2 : RecordGroup) : Prop :=
  exists a b,
    hd_error (records g1) = Some a /\
    hd_error (records g2) = Some b /\
    date a + THIRTY_HOURS_MS < date b.

Definition disjoint_records (g1 g2 : RecordGroup) : Prop :=
  forall r, In r (records g1) -> ~ In r (records g2).

Definition well_formed_24h (g : RecordGroup) : Prop :=
  create24hGroup (records g) = Some g /\
  windowed (records g) /\
  chronological (records g).

Lemma create24hGroup_cons c0 cs :
  exists g, create24hGroup (c0 :: cs) = Some g /\ records g = c0 :: cs.
Proof. eexists. split; reflexivity. Qed.

Lemma create24hGroup_Some l g :
  create24hGroup l = Some g ->
  records g = l /\ type g = T24h /\
  exists first,
    hd_error l = Some first /\
    gid g = "24h-" ++ Number_toString (date first) /\
    title g = title_24h_prefix ++ toLocaleDateString (date first).
Proof.
  destruct l as [|c0 cs]; [discriminate |].
  intros [= <-]. simpl. repeat split. exists c0. repeat split.
Qed.

Lemma apart_anchor_le g gs :
  StronglySorted apart (g :: gs) ->
  forall a, hd_error (records g) = Some a ->
  Forall (fun g' => exists b, hd_error (records g') = Some b /\
                              date a <= date b) (g :: gs).
Proof.
  intros H a Ha. apply StronglySorted_inv in H. destruct H as [_ H].
  constructor.
  - exists a. split; [exact Ha | lia].
  - eapply Forall_impl; [| exact H]. simpl.
    intros g' (a' & b & Ha' & Hb & Hlt).
    rewrite Ha in Ha'. injection Ha' as <-.
    exists b. split; [exact Hb |]. unfold THIRTY_HOURS_MS in Hlt. lia.
Qed.

Lemma scan_cons r rest groups c0 cs :
  scan (r :: rest) groups (c0 :: cs) =
  if date r - date c0 <=? THIRTY_HOURS_MS
  then scan rest groups ((c0 :: cs) ++ [r])%list
  else g <- create24hGroup (c0 :: cs) ;; scan rest (groups ++ [g])%list [r].
Proof. reflexivity. Qed.

(** The loop invariant, stated for the loop together with the push of
    the last group that follows it: started with a non-empty
    [currentGroup] whose records lie in the window of its first record
    [c0], on records that continue it in chronological order, the loop
    does not throw, leaves a non-empty [currentGroup], and the groups it
    adds are the consecutive runs of [currentGroup ++ rest]. *)
Lemma scan_invariant rest :
  forall groups c0 cs,
    chronological ((c0 :: cs) ++ rest) ->
    Forall (fun r => date r - date c0 <= THIRTY_HOURS_MS) (c0 :: cs) ->
    exists news last g,
      scan rest groups (c0 :: cs) = Some ((groups ++ news)%list, last) /\
      create24hGroup last = Some g /\
      Forall well_formed_24h (news ++ [g]) /\
      StronglySorted apart (news ++ [g]) /\
      List.concat (map records (news ++ [g])) = ((c0 :: cs) ++ rest)%list /\
      exists g0, hd_error (news ++ [g]) = Some g0 /\
                 hd_error (records g0) = Some c0.
Proof.
  induction rest as [|r rest IH]; intros groups c0 cs Hsorted Hwin.
  - destruct (create24hGroup_cons c0 cs) as (g & Hg & Hrec).
    exists [], (c0 :: cs), g. simpl.
    rewrite app_nil_r in *. rewrite Hrec.
    repeat split; auto.
    + constructor; [| constructor]. repeat split.
      * now rewrite Hrec.
      * rewrite Hrec. exists c0. split; [reflexivity |].
        apply chronological_cons in Hsorted. destruct Hsorted as [Hc0 _].
        rewrite Forall_forall in *. intros x Hx.
        specialize (Hwin x Hx). destruct Hx as [<- | Hx]; [lia |].
        specialize (Hc0 x Hx). lia.
      * now rewrite Hrec.
    + constructor; constructor.
    + exists g. now rewrite Hrec.
  - rewrite scan_cons.
    destruct (Z.leb_spec (date r - date c0) THIRTY_HOURS_MS) as [Hin | Hout].
    + destruct (IH groups c0 (cs ++ [r])%list) as (news & last & g & H).
      * simpl. rewrite <- app_assoc. exact Hsorted.
      * rewrite app_comm_cons. apply Forall_app. split; [exact Hwin |].
        constructor; [exact Hin | constructor].
      * exists news, last, g. simpl in *. rewrite <- app_assoc in H.
        exact H.
    + destruct (create24hGroup_cons c0 cs) as (g1 & Hg1 & Hrec1).
      rewrite Hg1. cbn [bind].
      apply chronological_app in Hsorted.
      destruct Hsorted as (Hcur & Hrest & Hcross).
      destruct (IH (groups ++ [g1])%list r []) as (news & last & g & H).
      * exact Hrest.
      * constructor; [unfold THIRTY_HOURS_MS; lia | constructor].
      * destruct H as (Hscan & Hlast & Hwf & Hap & Hcat & g0 & Hg0 & Hr0).
        exists (g1 :: news), last, g.
        rewrite <- app_assoc in Hscan. simpl in Hscan.
        repeat split; auto.
        -- simpl. constructor; [| exact Hwf]. repeat split.
           ++ now rewrite Hrec1.
           ++ rewrite Hrec1. exists c0. split; [reflexivity |].
              apply chronological_cons in Hcur. destruct Hcur as [Hc0 _].
              rewrite Forall_forall in *. intros x Hx.
              specialize (Hwin x Hx). destruct Hx as [<- | Hx]; [lia |].
              specialize (Hc0 x Hx). lia.
           ++ now rewrite Hrec1.
        -- simpl. constructor; [exact Hap |].
           destruct (news ++ [g])%list as [|h t] eqn:E; [discriminate |].
           simpl in Hg0. injection Hg0 as ->.
           pose proof (apart_anchor_le _ _ Hap _ Hr0) as Hle.
           eapply Forall_impl; [| exact Hle]. simpl.
           intros g' (b & Hb & Hrb).
           exists c0, b. rewrite Hrec1. repeat split; auto. lia.
        -- simpl. rewrite Hrec1, Hcat. reflexivity.
        -- exists g1. rewrite Hrec1. split; reflexivity.
Qed.

(** The group of the regular records, when there is one. *)
Definition regularGroup (rs : list EyePressureRecord) : RecordGroup :=
  {| gid := "regular";
     title := title_regular;
     type := Tregular;
     records := sortByDate (filter (fun r => negb (is24h r)) rs) |}.

Definition regularPart (rs : list EyePressureRecord) : list RecordGroup :=
  if (0 <? List.length (filter (fun r => negb (is24h r)) rs))%nat
  then [regularGroup rs]
  else [].

(** What [groupRecords] returns: the regular group if there is a regular
    record, then the runs of the sorted continuous records. *)
Lemma groupRecords_spec rs :
  exists conts,
    groupRecords rs = Some (regularPart rs ++ conts)%list /\
    Forall well_formed_24h conts /\
    StronglySorted apart conts /\
    List.concat (map records conts) =
      sortByDate (filter (fun r => is24h r) rs).
Proof.
  unfold groupRecords.
  change (([] ++ [{| gid := "regular"; title := title_regular;
                     type := Tregular;
                     records := sortByDate
                       (filter (fun r => negb (is24h r)) rs) |}])%list)
    with [regularGroup rs].
  fold (regularPart rs).
  destruct (filter (fun r => is24h r) rs) as [|x xs] eqn:E.
  - exists []. simpl. rewrite app_nil_r.
    repeat split; constructor.
  - cbn [List.length Nat.ltb Nat.leb].
    destruct (sortByDate_nonempty (x :: xs)) as (s0 & rest & Hs);
      [discriminate |].
    rewrite Hs. cbn [nth_error bind tl].
    destruct (scan_invariant rest (regularPart rs) s0 [])
      as (news & last & g & Hscan & Hlast & Hwf & Hap & Hcat & _).
    + simpl. rewrite <- Hs. apply sortByDate_chronological.
    + constructor; [unfold THIRTY_HOURS_MS; lia | constructor].
    + rewrite Hscan. cbn [bind].
      destruct (create24hGroup_Some _ _ Hlast) as (_ & _ & f & Hf & _).
      destruct last as [|l0 ls]; [discriminate |].
      cbn [List.length Nat.ltb Nat.leb]. rewrite Hlast. cbn [bind].
      exists (news ++ [g])%list. rewrite app_assoc.
      repeat split; auto.
Qed.

Lemma well_formed_24h_type g : well_formed_24h g -> is_24h_group g = true.
Proof.
  intros (Hc & _). apply create24hGroup_Some in Hc.
  unfold is_24h_group. destruct Hc as (_ & -> & _). reflexivity.
Qed.

Lemma filter_24h_conts rs conts :
  Forall well_formed_24h conts ->
  filter is_24h_group (regularPart rs ++ conts) = conts.
Proof.
  intros Hwf. rewrite filter_app.
  replace (filter is_24h_group (regularPart rs)) with (@nil RecordGroup)
    by (unfold regularPart; now destruct (_ <? _)%nat).
  simpl. induction Hwf as [|g gs Hg _ IH]; [reflexivity |].
  simpl. rewrite (well_formed_24h_type g Hg). now f_equal.
Qed.

Lemma apart_disjoint g1 g2 :
  apart g1 g2 -> windowed (records g1) -> windowed (records g2) ->
  disjoint_records g1 g2.
Proof.
  intros (a & b & Ha & Hb & Hlt) (a' & Ha' & H1) (b' & Hb' & H2) r Hr1 Hr2.
  rewrite Ha in Ha'. injection Ha' as <-.
  rewrite Hb in Hb'. injection Hb' as <-.
  rewrite Forall_forall in H1, H2.
  specialize (H1 r Hr1). specialize (H2 r Hr2). lia.
Qed.

Lemma apart_pairs conts :
  Forall well_formed_24h conts ->
  StronglySorted apart conts ->
  ForallOrdPairs disjoint_records conts.
Proof.
  intros Hwf Hap. induction Hap as [|g gs Hgs IH Hg].
  - constructor.
  - apply Forall_cons_iff in Hwf. destruct Hwf as [Hwg Hwgs].
    constructor; [| now apply IH].
    rewrite Forall_forall in *. intros g' Hin.
    apply apart_disjoint; [now apply Hg | apply Hwg |].
    now apply (Hwgs g' Hin).
Qed.

Lemma records_flag rs g r :
  In g (regularPart rs) -> In r (records g) -> is24h r = false.
Proof.
  unfold regularPart. destruct (_ <? _)%nat; [| contradiction].
  intros [<- | []] Hr. simpl in Hr.
  apply (Permutation_in _ (sortByDate_perm _)) in Hr.
  apply filter_In in Hr. now destruct (is24h r).
Qed.

Lemma Number_toString_inj a b :
  Number_toString a = Number_toString b -> a = b.
Proof.
  unfold Number_toString. intros H.
  assert (Hn : forall z, Z.to_int z <> Decimal.Pos Decimal.Nil /\
                         Z.to_int z <> Decimal.Neg Decimal.Nil).
  { intros [|p|p]; simpl; split; try discriminate;
      intros [= Hp]; now apply DecimalPos.Unsigned.to_uint_nonnil in Hp. }
  apply (f_equal DecimalString.NilZero.int_of_string) in H.
  rewrite !DecimalString.NilZero.isi in H by apply Hn.
  injection H as H. apply (f_equal Z.of_int) in H.
  now rewrite !DecimalZ.of_to in H.
Qed.

Lemma apart_ids conts :
  Forall well_formed_24h conts ->
  StronglySorted apart conts ->
  NoDup (map gid conts) /\ ~ In "regular" (map gid conts).
Proof.
  intros Hwf Hap. split.
  - induction Hap as [|g gs Hgs IH Hg]; [constructor |].
    apply Forall_cons_iff in Hwf. destruct Hwf as [Hwg Hwgs].
    simpl. constructor; [| now apply IH].
    rewrite in_map_iff. intros (g' & Hid & Hin).
    rewrite Forall_forall in Hg, Hwgs.
    destruct (Hg g' Hin) as (a & b & Ha & Hb & Hlt).
    destruct Hwg as (Hc & _). destruct (Hwgs g' Hin) as (Hc' & _).
    apply create24hGroup_Some in Hc, Hc'.
    destruct Hc as (_ & _ & a' & Ha' & Hida & _).
    destruct Hc' as (_ & _ & b' & Hb' & Hidb & _).
    rewrite Ha in Ha'. injection Ha' as <-.
    rewrite Hb in Hb'. injection Hb' as <-.
    rewrite Hida, Hidb in Hid. simpl in Hid. injection Hid as Hid.
    apply Number_toString_inj in Hid. unfold THIRTY_HOURS_MS in Hlt. lia.
  - rewrite in_map_iff. intros (g & Hid & Hin).
    rewrite Forall_forall in Hwf. destruct (Hwf g Hin) as (Hc & _).
    apply create24hGroup_Some in Hc.
    destruct Hc as (_ & _ & a & _ & Hida & _).
    rewrite Hida in Hid. discriminate.
Qed.

(** C1.  The continuous groups that [groupRecords] returns: every record of
    a group lies within thirty hours, inclusive, of the group's first
    record, which is its earliest; each group is in chronological order; no
    record lies in two of the groups; and together the groups hold exactly
    the continuous records of the input (as a run-by-run cut of their
    sorted list), no group holding a record of the other mode. *)
Theorem groupRecords_continuous_groups (rs : list EyePressureRecord) :
  returns (groupRecords rs) (fun gs =>
    let cont := filter is_24h_group gs in
    Forall (fun g => windowed (records g)) cont /\
    Forall (fun g => chronological (records g)) cont /\
    ForallOrdPairs disjoint_records cont /\
    Permutation (List.concat (map records cont))
                (filter (fun r => is24h r) rs) /\
    List.concat (map records cont) =
      sortByDate (filter (fun r => is24h r) rs) /\
    Forall (fun g => Forall (fun r => is24h r = is_24h_group g) (records g))
           gs).
Proof.
  destruct (groupRecords_spec rs) as (conts & Hg & Hwf & Hap & Hcat).
  exists (regularPart rs ++ conts)%list. split; [exact Hg |].
  cbv zeta. rewrite (filter_24h_conts rs conts Hwf).
  repeat split.
  - eapply Forall_impl; [| exact Hwf]. now intros g (_ & H & _).
  - eapply Forall_impl; [| exact Hwf]. now intros g (_ & _ & H).
  - now apply apart_pairs.
  - rewrite Hcat. apply sortByDate_perm.
  - exact Hcat.
  - apply Forall_app. split.
    + rewrite Forall_forall. intros g Hin. rewrite Forall_forall.
      intros r Hr. rewrite (records_flag rs g r Hin Hr).
      unfold regularPart in Hin. destruct (_ <? _)%nat; [| contradiction].
      now destruct Hin as [<- | []].
    + rewrite Forall_forall. intros g Hin. rewrite Forall_forall.
      intros r Hr.
      assert (In r (List.concat (map records conts))) as Hc.
      { apply in_concat. exists (records g). split; [| exact Hr].
        now apply in_map. }
      rewrite Hcat in Hc.
      apply (Permutation_in _ (sortByDate_perm _)) in Hc.
      apply filter_In in Hc. rewrite Forall_forall in Hwf.
      rewrite (well_formed_24h_type g (Hwf g Hin)). tauto.
Qed.

(** C2.  When the input has a regular record, the output starts with the
    one regular group: fixed id and title, all the regular records of the
    input, sorted ascending by timestamp.  Every group after it is a
    continuous group, and the continuous groups are in the chronological
    order of their first records. *)
Theorem groupRecords_regular_first (rs : list EyePressureRecord) :
  (exists r, In r rs /\ is24h r = false) ->
  returns (groupRecords rs) (fun gs =>
    exists reg conts,
      gs = reg :: conts /\
      gid reg = "regular" /\
      title reg = title_regular /\
      type reg = Tregular /\
      records reg = sortByDate (filter (fun r => negb (is24h r)) rs) /\
      chronological (records reg) /\
      Permutation (records reg) (filter (fun r => negb (is24h r)) rs) /\
      Forall (fun g => type g = T24h) conts /\
      StronglySorted apart conts).
Proof.
  intros (r & Hin & Hr).
  destruct (groupRecords_spec rs) as (conts & Hg & Hwf & Hap & Hcat).
  assert (regularPart rs = [regularGroup rs]) as Hreg.
  { unfold regularPart.
    destruct (filter (fun r => negb (is24h r)) rs) as [|x xs] eqn:E.
    - assert (In r []) as [].
      rewrite <- E. apply filter_In. now rewrite Hr.
    - reflexivity. }
  rewrite Hreg in Hg.
  exists (regularGroup rs :: conts). split; [exact Hg |].
  exists (regularGroup rs), conts. simpl.
  repeat split; auto.
  - apply sortByDate_chronological.
  - apply sortByDate_perm.
  - eapply Forall_impl; [| exact Hwf].
    intros g (Hc & _). apply create24hGroup_Some in Hc. tauto.
Qed.

(** C8.  The ids of the groups that [groupRecords] returns are pairwise
    distinct.  The id of a continuous group is ["24h-"] followed by the
    decimal time value of its first record, two continuous groups whose
    first records differ in time differ in id, and the id of the regular
    group is ["regular"], which no continuous group has. *)
Theorem groupRecords_ids_distinct (rs : list EyePressureRecord) :
  returns (groupRecords rs) (fun gs =>
    NoDup (map gid gs) /\
    Forall (fun g =>
              match type g with
              | Tregular => gid g = "regular"
              | T24h =>
                  exists first,
                    hd_error (records g) = Some first /\
                    gid g = "24h-" ++ Number_toString (date first)
              end) gs /\
    ForallOrdPairs (fun g1 g2 =>
                      is_24h_group g1 = true /\ is_24h_group g2 = true /\
                      apart g1 g2)
                   (filter is_24h_group gs) /\
    forall t, "regular" <> "24h-" ++ Number_toString t).
Proof.
  destruct (groupRecords_spec rs) as (conts & Hg & Hwf & Hap & Hcat).
  exists (regularPart rs ++ conts)%list. split; [exact Hg |].
  destruct (apart_ids conts Hwf Hap) as [Hnd Hnr].
  repeat split.
  - unfold regularPart. destruct (_ <? _)%nat; simpl; [| exact Hnd].
    now constructor.
  - apply Forall_app. split.
    + unfold regularPart. destruct (_ <? _)%nat; repeat constructor.
    + eapply Forall_impl; [| exact Hwf].
      intros g (Hc & _). apply create24hGroup_Some in Hc.
      destruct Hc as (_ & -> & a & Ha & Hid & _).
      exists a. split; assumption.
  - rewrite (filter_24h_conts rs conts Hwf).
    clear Hg Hcat Hnd Hnr.
    induction Hap as [|g gs Hgs IH Hgap]; [constructor |].
    apply Forall_cons_iff in Hwf. destruct Hwf as [Hwg Hwgs].
    constructor; [| now apply IH].
    rewrite Forall_forall in *. intros g' Hin.
    repeat split.
    + now apply well_formed_24h_type.
    + apply well_formed_24h_type. now apply Hwgs.
    + now apply Hgap.
  - discriminate.
Qed.

(** C9.  No record, no group. *)
Theorem groupRecords_empty : groupRecords [] = Some [].
Proof. reflexivity. Qed.

(** C10.  [groupRecords] never reads the first record of an empty group:
    it returns, and every group it returns holds at least one record, so
    each one has a first record. *)
Theorem groupRecords_groups_nonempty (rs : list EyePressureRecord) :
  returns (groupRecords rs) (fun gs =>
    Forall (fun g => exists first rest, records g = first :: rest) gs).
Proof.
  destruct (groupRecords_spec rs) as (conts & Hg & Hwf & Hap & Hcat).
  exists (regularPart rs ++ conts)%list. split; [exact Hg |].
  apply Forall_app. split.
  - unfold regularPart.
    destruct (filter (fun r => negb (is24h r)) rs) as [|x xs] eqn:E;
      [constructor |].
    constructor; [| constructor]. simpl. rewrite E.
    apply sortByDate_nonempty. discriminate.
  - eapply Forall_impl; [| exact Hwf].
    intros g (Hc & _). apply create24hGroup_Some in Hc.
    destruct Hc as (_ & _ & a & Ha & _).
    destruct (records g) as [|x xs]; [discriminate | eauto].
Qed.

(** ** The chart transform *)

(** [m] is the elapsed time [ms], in minutes, rounded to the nearest whole
    minute, half a minute rounding up. *)
Definition rounded_minutes (ms m : Z) : Prop :=
  60000 * m - 30000 <= ms < 60000 * m + 30000.

Lemma Math_round_div_minutes ms : rounded_minutes ms (Math_round_div ms 60000).
Proof.
  unfold rounded_minutes, Math_round_div.
  pose proof (Z.div_mod (2 * ms + 60000) (2 * 60000)) as Hdm.
  pose proof (Z.mod_pos_bound (2 * ms + 60000) (2 * 60000)) as Hb.
  lia.
Qed.

Lemma Math_round_div_mono a b :
  a <= b -> Math_round_div a 60000 <= Math_round_div b 60000.
Proof.
  intros H. unfold Math_round_div. apply Z.div_le_mono; lia.
Qed.

(** The chart point of one record, in a group whose first record has the
    time value [firstDate]. *)
Definition chartPoint (ty : GroupType) (firstDate : Z)
    (record : EyePressureRecord) : ChartDataPoint :=
  {| label :=
       match ty with
       | T24h =>
           if negb (getDate (date record) =? getDate firstDate)
           then "+1 " ++ formatTime (date record)
           else formatTime (date record)
       | Tregular => formatDate (date record)
       end;
     pleft := left record;
     pright := right record;
     average := (left record + right record) / 2;
     dateStr := date record;
     minutesFromStart :=
       Some (Math_round
               (double_div (double_sub (date record) firstDate) 60000)) |}.

Lemma toChartData_map (g : RecordGroup) first rest :
  records g = first :: rest ->
  toChartData g = map (chartPoint (type g) (date first)) (records g).
Proof. unfold toChartData. intros ->. reflexivity. Qed.

Lemma toChartData_nil (g : RecordGroup) :
  records g = [] -> toChartData g = [].
Proof. unfold toChartData. intros ->. reflexivity. Qed.

Lemma Forall2_map_diag {A B : Type} (P : A -> B -> Prop) (h : A -> B) l :
  (forall x, P x (h x)) -> Forall2 P l (map h l).
Proof. intros H. induction l; simpl; constructor; auto. Qed.

Lemma Forall2_map_cond {A B : Type} (Q : A -> Prop) (P : A -> B -> Prop)
    (h : A -> B) l :
  Forall Q l -> (forall x, Q x -> P x (h x)) -> Forall2 P l (map h l).
Proof. intros Hl H. induction Hl; simpl; constructor; auto. Qed.

(** The claim C4 of the design document, for one group. *)
Definition minutes_as_claimed (g : RecordGroup) : Prop :=
  chronological (records g) ->
  exists ms,
    map minutesFromStart (toChartData g) = map Some ms /\
    Forall2 (fun r m =>
               exists first,
                 hd_error (records g) = Some first /\
                 rounded_minutes (date r - date first) m)
            (records g) ms /\
    StronglySorted Z.le ms.

(** C4, as the code has it.  In a group whose records are in chronological
    order, every point carries a [minutesFromStart], and these values never
    decrease along the points.  For a record less than 2^53 milliseconds
    after the first record of the group, the value is the time between the
    two, in minutes, rounded to the nearest whole minute; further away the
    difference of the two time values is itself rounded, and the minute can
    be off. *)
Theorem toChartData_minutesFromStart (g : RecordGroup) :
  chronological (records g) ->
  exists ms,
    map minutesFromStart (toChartData g) = map Some ms /\
    Forall2 (fun r m =>
               exists first,
                 hd_error (records g) = Some first /\
                 (date r - date first < 2 ^ 53 ->
                  m = Math_round_div (date r - date first) 60000 /\
                  rounded_minutes (date r - date first) m))
            (records g) ms /\
    StronglySorted Z.le ms.
Proof.
  intros Hsorted. destruct (records g) as [|first rest] eqn:E.
  - exists []. rewrite (toChartData_nil g E).
    repeat split; constructor.
  - exists (map (fun r => minutesBetween (date r) (date first))
                (first :: rest)).
    rewrite (toChartData_map g first rest E), E, !map_map.
    split; [reflexivity |].
    pose proof Hsorted as Hfirst. apply chronological_cons in Hfirst.
    destruct Hfirst as [Hfirst _].
    assert (Hall : Forall (fun r => date first <= date r) (first :: rest))
      by (constructor; [lia | exact Hfirst]).
    split.
    + apply (Forall2_map_cond _ _ _ _ Hall). intros r Hr.
      exists first. split; [reflexivity |]. intros Hspan.
      rewrite minutesBetween_exact by lia.
      split; [reflexivity | apply Math_round_div_minutes].
    + clear E Hfirst.
      induction Hsorted as [|x xs Hxs IH Hx]; simpl; constructor.
      * apply IH. now apply Forall_inv_tail in Hall.
      * rewrite Forall_map. apply Forall_inv in Hall.
        eapply Forall_impl; [| exact Hx].
        cbv beta. intros y Hy. apply minutesBetween_mono; lia.
Qed.

(** C5.  One point per record, in the order of the records; no point for
    the empty group; and the first point of a non-empty group is at minute
    zero. *)
Theorem toChartData_shape (g : RecordGroup) :
  List.length (toChartData g) = List.length (records g) /\
  map dateStr (toChartData g) = map date (records g) /\
  map pleft (toChartData g) = map left (records g) /\
  map pright (toChartData g) = map right (records g) /\
  (forall i t ty,
     toChartData {| gid := i; title := t; type := ty; records := [] |} = []) /\
  (forall i t ty first rest,
     exists p ps,
       toChartData {| gid := i; title := t; type := ty;
                      records := first :: rest |} = p :: ps /\
       dateStr p = date first /\
       minutesFromStart p = Some 0).
Proof.
  assert (Hmap : exists f, (forall r, dateStr (f r) = date r /\
                                      pleft (f r) = left r /\
                                      pright (f r) = right r) /\
                           toChartData g = map f (records g)).
  { destruct (records g) as [|first rest] eqn:E.
    - exists (chartPoint (type g) 0). split; [now intros r |].
      now rewrite (toChartData_nil g E).
    - exists (chartPoint (type g) (date first)). split; [now intros r |].
      now rewrite (toChartData_map g first rest E), E. }
  destruct Hmap as (f & Hf & ->).
  rewrite length_map, !map_map.
  repeat split; try (apply map_ext; intros r; apply Hf).
  intros i t ty first rest.
  eexists. eexists. split; [reflexivity |]. split; [reflexivity |].
  cbn [minutesFromStart chartPoint]. unfold double_sub.
  rewrite Z.sub_diag. reflexivity.
Qed.

(** C6.  The average of a point is the sum of the two readings of its
    record divided by two, as a binary64 value: no rounding for display is
    applied. *)
Theorem toChartData_average (g : RecordGroup) :
  map average (toChartData g) =
  map (fun r => ((left r + right r) / 2)%float) (records g).
Proof.
  destruct (records g) as [|first rest] eqn:E.
  - now rewrite (toChartData_nil g E).
  - rewrite (toChartData_map g first rest E), E, map_map. reflexivity.
Qed.

(** ** The record boundary *)

Lemma pushResults_app l1 l2 acc :
  pushResults (l1 ++ l2) acc = pushResults l2 (pushResults l1 acc).
Proof.
  revert acc. induction l1 as [|p l1 IH]; intros acc; simpl.
  - reflexivity.
  - apply IH.
Qed.

Lemma pushResults_acc l acc :
  pushResults l acc = (acc ++ pushResults l [])%list.
Proof.
  revert acc. induction l as [|p l IH]; intros acc; simpl.
  - now rewrite app_nil_r.
  - destruct (Notion.properties p); [destruct (transformNotionPage p) |];
      rewrite (IH (_ ++ _)%list) || rewrite IH; simpl;
      try rewrite (IH [_]); try rewrite <- app_assoc; reflexivity.
Qed.


(** ** Labels of the chart points *)

(** The calendar.  [yearOfCycle] and [yearStart] are the year of a cycle day
    inside its cycle and the first cycle day of such a year, as
    [dateOfCycleDay] computes them; [monthDay] is the day of the month of
    the day [doy] of a year that starts on the 1st of March. *)
Definition yearOfCycle (e : Z) : Z :=
  (e - e / 1460 + e / 36524 - e / 146096) / 365.
Definition yearStart (y : Z) : Z := 365 * y + y / 4 - y / 100.
Definition monthDay (doy : Z) : Z :=
  doy - (153 * ((5 * doy + 2) / 153) + 2) / 5 + 1.

Lemma dateOfCycleDay_monthDay e :
  dateOfCycleDay e = monthDay (e - yearStart (yearOfCycle e)).
Proof. reflexivity. Qed.

Lemma yearOfCycle_bounds e :
  0 <= e < 146097 ->
  yearStart (yearOfCycle e) <= e /\ e - yearStart (yearOfCycle e) <= 365.
Proof.
  clear Date_parse LocalTZA toLocaleDateString. 
  intros H. unfold yearOfCycle, yearStart. Z.div_mod_to_equations. lia.
Qed.

Lemma yearOfCycle_next e :
  0 <= e < 146096 ->
  yearOfCycle (e + 1) = yearOfCycle e \/
  (e + 1 = yearStart (yearOfCycle (e + 1)) /\
   364 <= e - yearStart (yearOfCycle e)).
Proof.
  clear Date_parse LocalTZA toLocaleDateString. 
  intros H. unfold yearOfCycle, yearStart. Z.div_mod_to_equations. lia.
Qed.

Lemma monthDay_range d : 0 <= d <= 365 -> 1 <= monthDay d <= 31.
Proof.
  clear Date_parse LocalTZA toLocaleDateString. 
  intros H. unfold monthDay. Z.div_mod_to_equations. lia.
Qed.

Lemma monthDay_next d :
  0 <= d < 365 ->
  monthDay (d + 1) = monthDay d + 1 \/ (monthDay (d + 1) = 1 /\ 28 <= monthDay d).
Proof.
  clear Date_parse LocalTZA toLocaleDateString. 
  intros H. unfold monthDay. Z.div_mod_to_equations. lia.
Qed.

Lemma monthDay_last d : 364 <= d <= 365 -> 28 <= monthDay d.
Proof.
  clear Date_parse LocalTZA toLocaleDateString. 
  intros H. unfold monthDay. Z.div_mod_to_equations. lia.
Qed.

(** The day of the month of the day number [D]. *)
Definition dayOfMonth (D : Z) : Z := dateOfCycleDay (cycleDay D).

(** From a day to the next, the day of the month grows by one or starts
    again at 1 after a 28th or a later day. *)
Lemma dayOfMonth_next D :
  1 <= dayOfMonth D <= 31 /\
  (dayOfMonth (D + 1) = dayOfMonth D + 1 \/
   (dayOfMonth (D + 1) = 1 /\ 28 <= dayOfMonth D)).
Proof.
  unfold dayOfMonth.
  assert (He : 0 <= cycleDay D < 146097)
    by (apply Z.mod_pos_bound; reflexivity).
  assert (Hn : cycleDay (D + 1) = (cycleDay D + 1) mod 146097).
  { unfold cycleDay, daysPerCycle.
    rewrite Z.add_mod_idemp_l by discriminate. f_equal. lia. }
  rewrite Hn. generalize dependent (cycleDay D). intros e He _.
  rewrite !dateOfCycleDay_monthDay.
  pose proof (yearOfCycle_bounds e He) as Hb.
  split; [apply monthDay_range; lia |].
  destruct (Z.eq_dec e 146096) as [-> | Hne].
  - right. vm_compute. split; [reflexivity | discriminate].
  - rewrite Z.mod_small by lia.
    pose proof (yearOfCycle_bounds (e + 1) ltac:(lia)) as Hb'.
    destruct (yearOfCycle_next e ltac:(lia)) as [Hy | [Hs Hl]].
    + rewrite Hy in *.
      replace (e + 1 - yearStart (yearOfCycle e))
        with (e - yearStart (yearOfCycle e) + 1) by lia.
      apply monthDay_next. lia.
    + right. rewrite <- Hs, Z.sub_diag. split; [reflexivity |].
      apply monthDay_last. lia.
Qed.

Lemma dayOfMonth_later D (k : nat) :
  (k <= 27)%nat ->
  dayOfMonth (D + Z.of_nat k) = dayOfMonth D + Z.of_nat k \/
  (dayOfMonth (D + Z.of_nat k) <= Z.of_nat k /\
   dayOfMonth (D + Z.of_nat k) + 28 <= dayOfMonth D + Z.of_nat k).
Proof.
  induction k as [|k IH]; intros Hk.
  - left. simpl. now rewrite !Z.add_0_r.
  - specialize (IH ltac:(lia)).
    replace (D + Z.of_nat (S k)) with (D + Z.of_nat k + 1) by lia.
    pose proof (dayOfMonth_next (D + Z.of_nat k)) as Hn.
    pose proof (dayOfMonth_next D) as H0.
    lia.
Qed.

(** Two different days less than four weeks apart differ in their day of
    the month. *)
Lemma dayOfMonth_inj D1 D2 :
  Z.abs (D1 - D2) <= 27 -> dayOfMonth D1 = dayOfMonth D2 -> D1 = D2.
Proof.
  assert (H : forall D k, 0 < k <= 27 -> dayOfMonth (D + k) <> dayOfMonth D).
  { intros D k Hk.
    pose proof (dayOfMonth_later D (Z.to_nat k) ltac:(lia)) as Hl.
    rewrite Z2Nat.id in Hl by lia. lia. }
  intros Habs Heq.
  destruct (Z.lt_trichotomy D1 D2) as [Hlt | [-> | Hgt]]; [| reflexivity |].
  - exfalso. apply (H D1 (D2 - D1)); [lia |].
    replace (D1 + (D2 - D1)) with D2 by lia. now symmetry.
  - exfalso. apply (H D2 (D1 - D2)); [lia |].
    replace (D2 + (D1 - D2)) with D1 by lia. exact Heq.
Qed.

Definition digit (d : Z) : ascii := ascii_of_nat (48 + Z.to_nat d).

(** The two decimal digits of a number below one hundred. *)
Definition two_digits (n : Z) : string :=
  String (digit (n / 10)) (String (digit (n mod 10)) EmptyString).

Lemma padStart_two_digits n :
  0 <= n < 60 -> padStart (Number_toString n) 2 "0" = two_digits n.
Proof.
  intros H.
  assert (Hnat : forall k : nat, (k < 60)%nat ->
            padStart (Number_toString (Z.of_nat k)) 2 "0" =
            two_digits (Z.of_nat k)).
  { intros k Hk. do 60 (destruct k as [|k]; [reflexivity |]). lia. }
  rewrite <- (Z2Nat.id n) by lia. apply Hnat. lia.
Qed.

Lemma getHours_range t : 0 <= getHours t < 24.
Proof. apply Z.mod_pos_bound. reflexivity. Qed.

Lemma getMinutes_range t : 0 <= getMinutes t < 60.
Proof. apply Z.mod_pos_bound. reflexivity. Qed.

Lemma formatTime_two_digits t :
  formatTime t = two_digits (getHours t) ++ ":" ++ two_digits (getMinutes t).
Proof.
  unfold formatTime.
  pose proof (getHours_range t). pose proof (getMinutes_range t).
  rewrite !padStart_two_digits by lia. reflexivity.
Qed.

(** The label that the design document asks for: in a continuous group the
    time of day, with the marker in front when the calendar day of the
    record is not that of the first record; in a regular group the date. *)
Definition expected_label (ty : GroupType) (first record : EyePressureRecord)
  : string :=
  match ty with
  | T24h =>
      (if localDay (date record) =? localDay (date first) then "" else "+1 ")
      ++ two_digits (getHours (date record)) ++ ":"
      ++ two_digits (getMinutes (date record))
  | Tregular => formatDate (date record)
  end.

Definition labels_as_expected (g : RecordGroup) : Prop :=
  forall first i r,
    hd_error (records g) = Some first ->
    nth_error (records g) i = Some r ->
    exists p,
      nth_error (toChartData g) i = Some p /\
      label p = expected_label (type g) first r.

(** C3.  The label of every point of a group.  The group is one of the
    data model: in a continuous group no record is more than thirty hours
    from the first one, which is what [groupRecords] makes; a regular
    group needs no condition.  The
    host's offset from UTC is at most a day, as the language standard has
    it for every time zone.  Then the label of a point of a continuous
    group is the local time of day of its record, two digits for the hour
    and two for the minute, with the marker in front exactly when the
    calendar day of the record is not that of the first record; and in a
    regular group it is the date as the locale writes it, never marked. *)
Theorem toChartData_label (g : RecordGroup) :
  (forall t, - msPerDay <= LocalTZA t <= msPerDay) ->
  (type g = T24h ->
   forall first r,
     hd_error (records g) = Some first -> In r (records g) ->
     Z.abs (date r - date first) <= THIRTY_HOURS_MS) ->
  labels_as_expected g.
Proof.
  clear Date_parse.
  intros Htz Hwin first i r Hfirst Hr.
  destruct (records g) as [|f rest] eqn:E; [discriminate |].
  injection Hfirst as ->.
  rewrite (toChartData_map g first rest E), E, nth_error_map, Hr.
  eexists. split; [reflexivity |].
  unfold chartPoint, expected_label. cbn [label].
  destruct (type g) eqn:Ety; [| reflexivity].
  rewrite formatTime_two_digits.
  assert (Hin : In r (first :: rest)) by (eapply nth_error_In; exact Hr).
  specialize (Hwin eq_refl first r eq_refl Hin).
  assert (Hiff : getDate (date r) = getDate (date first) <->
                 localDay (date r) = localDay (date first)).
  { unfold getDate, DateFromTime, localDay. split; [| now intros ->].
    apply dayOfMonth_inj.
    pose proof (Htz (date r)). pose proof (Htz (date first)).
    unfold LocalTime, Day, msPerDay, THIRTY_HOURS_MS in *.
    Z.div_mod_to_equations. lia. }
  destruct (Z.eqb_spec (getDate (date r)) (getDate (date first))) as [He | Hne];
    destruct (Z.eqb_spec (localDay (date r)) (localDay (date first)))
      as [Hl | Hnl]; try reflexivity; tauto.
Qed.

End Locale.

(** ** Concrete runs *)

Definition hour : Z := 3600000.

(** A host in UTC whose locale writes a date as its day number. *)
Definition utc (t : Z) : Z := 0.
Definition day_number_locale (t : Z) : string := Number_toString (Day t).

Definition reading (i : string) (t : Z) (continuous : bool)
  : EyePressureRecord :=
  {| id := i; name := ""; date := t; left := 15; right := 18;
     is24h := continuous; note := "" |}.

(** Records at T, T+10h and T+31h make two groups. *)
Example scenario_two_groups :
  option_map (map (fun g => map id (records g)))
    (groupRecords day_number_locale
       [reading "c" (31 * hour) true; reading "a" 0 true;
        reading "b" (10 * hour) true])
  = Some [["a"; "b"]; ["c"]].
Proof. reflexivity. Qed.

(** The window does not slide: T+40h is within thirty hours of T+20h, yet
    it opens a new group, being more than thirty hours after T. *)
Example scenario_anchor_does_not_slide :
  option_map (map (fun g => (gid g, map id (records g))))
    (groupRecords day_number_locale
       [reading "a" 0 true; reading "b" (20 * hour) true;
        reading "c" (40 * hour) true; reading "d" (30 * hour) true])
  = Some [("24h-0", ["a"; "b"; "d"]); ("24h-144000000", ["c"])].
Proof. reflexivity. Qed.

(** Regular and continuous records together: the regular group is first. *)
Example scenario_mixed :
  option_map (map (fun g => (gid g, map id (records g))))
    (groupRecords day_number_locale
       [reading "a" (5 * hour) true; reading "r2" (900 * hour) false;
        reading "r1" (2 * hour) false; reading "b" (6 * hour) true])
  = Some [("regular", ["r1"; "r2"]); ("24h-18000000", ["a"; "b"])].
Proof. reflexivity. Qed.

Example scenario_chart :
  map (fun p => (label p, average p, minutesFromStart p))
    (toChartData utc day_number_locale
       {| gid := "24h-28800000"; title := ""; type := T24h;
          records := [reading "a" (8 * hour) true;
                      reading "b" (23 * hour + 59 * 60000 + 29999) true;
                      reading "c" (24 * hour + 30000) true;
                      reading "d" (33 * hour + 5 * 60000) true] |})
  = [("08:00", 16.5%float, Some 0); ("23:59", 16.5%float, Some 959);
     ("+1 00:00", 16.5%float, Some 961); ("+1 09:05", 16.5%float, Some 1505)].
Proof. reflexivity. Qed.

(** A continuous group whose two records are a month apart: the 5th of
    January and the 5th of February 2024, both at 08:00 UTC. *)
Definition month_apart : RecordGroup :=
  {| gid := "24h-1704441600000"; title := ""; type := T24h;
     records := [reading "a" 1704441600000 true;
                 reading "b" 1707120000000 true] |}.

(** The condition on a continuous group is needed: [toChartData] compares
    days of the month, and in [month_apart], which [groupRecords] would
    never make, the second record is on another calendar day than the first
    and on the same day of the month, so its label has no marker. *)
Lemma toChartData_label_month_apart :
  ~ labels_as_expected utc day_number_locale month_apart.
Proof.
  intros H.
  destruct (H (reading "a" 1704441600000 true) 1%nat
              (reading "b" 1707120000000 true) eq_refl eq_refl)
    as (p & Hp & Hl).
  injection Hp as <-. vm_compute in Hl. discriminate.
Qed.

Definition sample_day : RecordGroup :=
  {| gid := "24h-28800000"; title := ""; type := T24h;
     records := [reading "a" (8 * hour) true;
                 reading "b" (23 * hour + 59 * 60000 + 29999) true;
                 reading "c" (24 * hour + 30000) true;
                 reading "d" (33 * hour + 5 * 60000) true] |}.

Lemma toChartData_label_witness :
  (forall t, - msPerDay <= utc t <= msPerDay) /\
  (type sample_day = T24h ->
   forall first r,
     hd_error (records sample_day) = Some first ->
     In r (records sample_day) ->
     Z.abs (date r - date first) <= THIRTY_HOURS_MS) /\
  labels_as_expected utc day_number_locale sample_day.
Proof.
  assert (H1 : forall t, - msPerDay <= utc t <= msPerDay)
    by (intros t; unfold utc, msPerDay; lia).
  assert (H2 : type sample_day = T24h ->
               forall first r,
                 hd_error (records sample_day) = Some first ->
                 In r (records sample_day) ->
                 Z.abs (date r - date first) <= THIRTY_HOURS_MS).
  { intros _ first r [= <-] Hr. simpl in Hr.
    destruct Hr as [<- | [<- | [<- | [<- | []]]]]; vm_compute; discriminate. }
  split; [exact H1 |]. split; [exact H2 |].
  exact (toChartData_label utc day_number_locale sample_day H1 H2).
Defined.

Definition sample_records : list EyePressureRecord :=
  [reading "a" (5 * hour) true; reading "r2" (900 * hour) false;
   reading "r1" (2 * hour) false; reading "b" (6 * hour) true].

Lemma groupRecords_regular_first_witness :
  (exists r, In r sample_records /\ is24h r = false) /\
  returns (groupRecords day_number_locale sample_records) (fun gs =>
    exists reg conts,
      gs = reg :: conts /\
      gid reg = "regular" /\
      title reg = title_regular /\
      type reg = Tregular /\
      records reg =
        sortByDate (filter (fun r => negb (is24h r)) sample_records) /\
      chronological (records reg) /\
      Permutation (records reg)
                  (filter (fun r => negb (is24h r)) sample_records) /\
      Forall (fun g => type g = T24h) conts /\
      StronglySorted apart conts).
Proof.
  assert (H : exists r, In r sample_records /\ is24h r = false).
  { exists (reading "r1" (2 * hour) false). split; [| reflexivity].
    simpl. tauto. }
  split; [exact H |].
  exact (groupRecords_regular_first day_number_locale sample_records H).
Defined.

Lemma toChartData_minutesFromStart_witness :
  chronological (records sample_day) /\
  exists ms,
    map minutesFromStart (toChartData utc day_number_locale sample_day) =
      map Some ms /\
    Forall2 (fun r m =>
               exists first,
                 hd_error (records sample_day) = Some first /\
                 (date r - date first < 2 ^ 53 ->
                  m = Math_round_div (date r - date first) 60000 /\
                  rounded_minutes (date r - date first) m))
            (records sample_day) ms /\
    StronglySorted Z.le ms.
Proof.
  assert (H : chronological (records sample_day)).
  { repeat (constructor; [| repeat constructor; vm_compute; discriminate]).
    constructor. }
  split; [exact H |].
  exact (toChartData_minutesFromStart utc day_number_locale sample_day H).
Defined.

(** A regular group whose two records are the earliest time value there is
    and one 12000000000029999 ms later, some 380000 years.  The difference
    is no binary64 number: the subtraction gives 12000000000030000, the
    quotient is 200000000000.5, and [Math.round] takes it up. *)
Definition far_apart : RecordGroup :=
  {| gid := "regular"; title := title_regular; type := Tregular;
     records := [reading "a" (-8640000000000000) false;
                 reading "b" 3360000000029999 false] |}.

(** C4 as it is stated, for every chronological group, fails: the second
    point of [far_apart] is at minute 200000000001, and the nearest whole
    minute of the time between the two records is 200000000000. *)
Lemma toChartData_minutes_far_apart :
  ~ minutes_as_claimed utc day_number_locale far_apart.
Proof.
  intros H.
  assert (Hc : chronological (records far_apart)).
  { repeat (constructor; [| repeat constructor; vm_compute; discriminate]).
    constructor. }
  destruct (H Hc) as (ms & Hmap & HF & _).
  vm_compute in Hmap.
  destruct ms as [|m0 [|m1 [|m2 ms]]]; try discriminate.
  injection Hmap as <- <-.
  inversion HF as [|r0 n0 l0 k0 _ HF']; subst.
  inversion HF' as [|r1 n1 l1 k1 (first & Hfirst & Hr) _]; subst.
  injection Hfirst as <-.
  unfold rounded_minutes in Hr. cbn [date reading] in Hr. lia.
Qed.

(** *** The binary64 model against the primitive floats *)

(** The primitive float that holds an integer below 2^63 in magnitude. *)
Definition float_of_integer (z : Z) : float :=
  match z with
  | Z0 => 0%float
  | Zpos _ => of_uint63 (Uint63.of_Z z)
  | Zneg p => (- of_uint63 (Uint63.of_Z (Zpos p)))%float
  end.

(** [Math.round] on a primitive float, through its sign, mantissa and
    exponent. *)
Definition Math_round_float (f : float) : option Z :=
  match FloatOps.Prim2SF f with
  | SpecFloat.S754_zero _ => Some 0
  | SpecFloat.S754_finite sign m e =>
      Some (Math_round {| mantissa := if sign then Zneg m else Zpos m;
                          exponent := e |})
  | _ => None
  end.

(** [Math.round((date.getTime() - firstTimestamp) / 60000)] on primitive
    floats agrees with the model. *)
Definition agrees_with_floats (date_ firstTimestamp : Z) : bool :=
  match Math_round_float
          ((float_of_integer date_ - float_of_integer firstTimestamp)
           / 60000)%float with
  | Some m =>
      m =? Math_round (double_div (double_sub date_ firstTimestamp) 60000)
  | None => false
  end.

Fixpoint agrees_from (n : nat) (date_ step firstTimestamp : Z) : bool :=
  match n with
  | O => true
  | S n' =>
      agrees_with_floats date_ firstTimestamp &&
      agrees_from n' (date_ + step) step firstTimestamp
  end.

Example floats_far_apart :
  Math_round_float
    ((float_of_integer 3360000000029999 - float_of_integer (-8640000000000000))
     / 60000)%float = Some 200000000001.
Proof. vm_compute. reflexivity. Qed.

Example floats_agree :
  agrees_from 200 0 29999 0 = true /\
  agrees_from 200 9007199254740900 1 0 = true /\
  agrees_from 200 9007199254000000 7919 (-8000000000000000) = true /\
  agrees_from 200 12000000000000000 9999 (-1) = true /\
  agrees_from 200 (-12000000000000000) 9999 1 = true /\
  agrees_with_floats 8640000000000000 (-8640000000000000) = true.
Proof. vm_compute. repeat split. Qed.

(** ** More on the grouping engine *)

Section GroupingLaws.

Variable toLocaleDateString : Z -> string.

Lemma filter_split_perm {A : Type} (f : A -> bool) (l : list A) :
  Permutation (filter (fun x => negb (f x)) l ++ filter f l) l.
Proof.
  induction l as [|x xs IH]; simpl; [constructor |].
  destruct (f x); simpl.
  - rewrite <- Permutation_middle. now constructor.
  - now constructor.
Qed.

Lemma regularPart_records rs :
  List.concat (map records (regularPart rs)) =
  sortByDate (filter (fun r => negb (is24h r)) rs).
Proof.
  unfold regularPart.
  destruct (filter (fun r => negb (is24h r)) rs) eqn:E;
    cbn [List.length Nat.ltb Nat.leb]; [reflexivity |].
  unfold regularGroup. cbn [map List.concat records].
  now rewrite E, app_nil_r.
Qed.

Lemma groupRecords_perm (rs : list EyePressureRecord) :
  exists gs,
    groupRecords toLocaleDateString rs = Some gs /\
    Permutation (List.concat (map records gs)) rs.
Proof.
  destruct (groupRecords_spec toLocaleDateString rs)
    as (conts & Hg & _ & _ & Hcat).
  eexists. split; [exact Hg |].
  rewrite map_app, concat_app, Hcat, regularPart_records.
  rewrite (sortByDate_perm (filter (fun r => negb (is24h r)) rs)).
  rewrite (sortByDate_perm (filter (fun r => is24h r) rs)).
  apply (filter_split_perm (fun r => is24h r)).
Qed.

(** Grouping neither loses nor repeats a record: the records of all the
    groups together are the records of the input. *)
Theorem groupRecords_keeps_all_records (rs : list EyePressureRecord) :
  returns (groupRecords toLocaleDateString rs) (fun gs =>
    Permutation (List.concat (map records gs)) rs).
Proof.
  destruct (groupRecords_spec toLocaleDateString rs)
    as (conts & Hg & _ & _ & Hcat).
  exists (regularPart rs ++ conts)%list. split; [exact Hg |].
  rewrite map_app, concat_app, Hcat, regularPart_records.
  etransitivity; [| apply (filter_split_perm (fun r => is24h r))].
  apply Permutation_app; apply sortByDate_perm.
Qed.

(** Two records of one continuous group are never more than thirty hours
    apart. *)
Theorem groupRecords_group_span (rs : list EyePressureRecord) :
  returns (groupRecords toLocaleDateString rs) (fun gs =>
    forall g r1 r2,
      In g gs -> type g = T24h ->
      In r1 (records g) -> In r2 (records g) ->
      Z.abs (date r1 - date r2) <= THIRTY_HOURS_MS).
Proof.
  destruct (groupRecords_spec toLocaleDateString rs)
    as (conts & Hg & Hwf & _ & _).
  eexists. split; [exact Hg |].
  intros g r1 r2 Hin Hty H1 H2.
  apply in_app_or in Hin. destruct Hin as [Hin | Hin].
  - unfold regularPart in Hin. destruct (_ <? _)%nat; [| contradiction].
    destruct Hin as [<- | []]. discriminate.
  - rewrite Forall_forall in Hwf.
    destruct (Hwf g Hin) as (_ & (first & _ & Hw) & _).
    rewrite Forall_forall in Hw.
    pose proof (Hw r1 H1). pose proof (Hw r2 H2). lia.
Qed.

(** Continuous records that all lie within thirty hours of one another
    make one group, which holds them all in chronological order. *)
Theorem groupRecords_single_window (rs : list EyePressureRecord) :
  (exists r, In r rs /\ is24h r = true) ->
  (forall a b, In a rs -> In b rs -> is24h a = true -> is24h b = true ->
               date b - date a <= THIRTY_HOURS_MS) ->
  returns (groupRecords toLocaleDateString rs) (fun gs =>
    exists g,
      filter is_24h_group gs = [g] /\
      records g = sortByDate (filter (fun r => is24h r) rs)).
Proof.
  intros (r0 & Hr0 & Hc0) Hspan.
  destruct (groupRecords_spec toLocaleDateString rs)
    as (conts & Hg & Hwf & Hap & Hcat).
  eexists. split; [exact Hg |].
  rewrite (filter_24h_conts toLocaleDateString rs conts Hwf).
  assert (Hmem : forall g r, In g conts -> In r (records g) ->
                             In r rs /\ is24h r = true).
  { intros g r Hin Hr.
    assert (In r (List.concat (map records conts))) as Hc.
    { apply in_concat. exists (records g). split; [now apply in_map | exact Hr]. }
    rewrite Hcat in Hc. apply (Permutation_in _ (sortByDate_perm _)) in Hc.
    now apply filter_In in Hc. }
  destruct conts as [|g1 [|g2 conts]].
  - exfalso. simpl in Hcat.
    assert (In r0 []) as [].
    rewrite Hcat. apply (Permutation_in _ (Permutation_sym (sortByDate_perm _))).
    apply filter_In. now split.
  - exists g1. split; [reflexivity |].
    simpl in Hcat. now rewrite app_nil_r in Hcat.
  - exfalso. apply StronglySorted_inv in Hap. destruct Hap as [_ Hap].
    apply Forall_inv in Hap. destruct Hap as (a & b & Ha & Hb & Hlt).
    assert (In a (records g1)) as Ha'
      by (destruct (records g1); [discriminate | injection Ha as <-; now left]).
    assert (In b (records g2)) as Hb'
      by (destruct (records g2); [discriminate | injection Hb as <-; now left]).
    destruct (Hmem g1 a (or_introl eq_refl) Ha') as [Hain Hac].
    destruct (Hmem g2 b (or_intror (or_introl eq_refl)) Hb') as [Hbin Hbc].
    pose proof (Hspan a b Hain Hbin Hac Hbc). lia.
Qed.

Lemma date_inj_in (l : list EyePressureRecord) x y :
  NoDup (map date l) -> In x l -> In y l -> date x = date y -> x = y.
Proof.
  induction l as [|z zs IH]; simpl; [contradiction |].
  intros Hnd [-> | Hx] [-> | Hy] Heq; try reflexivity.
  - apply NoDup_cons_iff in Hnd. destruct Hnd as [Hn _].
    exfalso. apply Hn. rewrite Heq. now apply in_map.
  - apply NoDup_cons_iff in Hnd. destruct Hnd as [Hn _].
    exfalso. apply Hn. rewrite <- Heq. now apply in_map.
  - apply NoDup_cons_iff in Hnd. now apply IH.
Qed.

Lemma chronological_unique l1 :
  forall l2,
    chronological l1 -> chronological l2 -> Permutation l1 l2 ->
    NoDup (map date l1) -> l1 = l2.
Proof.
  induction l1 as [|x xs IH]; intros l2 H1 H2 Hp Hnd.
  - apply Permutation_nil in Hp. now subst.
  - destruct l2 as [|y ys].
    + apply Permutation_sym, Permutation_nil in Hp. discriminate.
    + assert (x = y) as <-.
      { apply (date_inj_in (x :: xs)); auto; [now left | |].
        - apply (Permutation_in _ (Permutation_sym Hp)). now left.
        - assert (In y (x :: xs)) as Hy
            by (apply (Permutation_in _ (Permutation_sym Hp)); now left).
          assert (In x (y :: ys)) as Hx
            by (apply (Permutation_in _ Hp); now left).
          apply chronological_cons in H1, H2.
          destruct H1 as [F1 _], H2 as [F2 _].
          rewrite Forall_forall in F1, F2.
          destruct Hy as [-> | Hy]; [reflexivity |].
          destruct Hx as [-> | Hx]; [reflexivity |].
          pose proof (F1 y Hy). pose proof (F2 x Hx). lia. }
      f_equal. apply chronological_cons in H1, H2.
      apply IH; try tauto.
      * now apply Permutation_cons_inv in Hp.
      * simpl in Hnd. now apply NoDup_cons_iff in Hnd.
Qed.

Lemma NoDup_map_filter (f : EyePressureRecord -> bool) l :
  NoDup (map date l) -> NoDup (map date (filter f l)).
Proof.
  induction l as [|x xs IH]; simpl; intros Hnd; [constructor |].
  apply NoDup_cons_iff in Hnd. destruct Hnd as [Hn Hnd].
  destruct (f x); simpl; [| now apply IH].
  constructor; [| now apply IH].
  intros Hin. apply Hn. apply in_map_iff in Hin.
  destruct Hin as (y & Hy & Hin). apply filter_In in Hin.
  rewrite <- Hy. apply in_map. tauto.
Qed.

Lemma Permutation_filter_same {A : Type} (f : A -> bool) l1 l2 :
  Permutation l1 l2 -> Permutation (filter f l1) (filter f l2).
Proof.
  induction 1 as [| x l l' _ IH | x y l | l l' l'' _ IH1 _ IH2]; simpl.
  - constructor.
  - destruct (f x); [now constructor | exact IH].
  - destruct (f x), (f y); try reflexivity. apply perm_swap.
  - now transitivity (filter f l').
Qed.

Lemma sortByDate_perm_eq l1 l2 :
  Permutation l1 l2 -> NoDup (map date l1) ->
  sortByDate l1 = sortByDate l2.
Proof.
  intros Hp Hnd. apply chronological_unique.
  - apply sortByDate_chronological.
  - apply sortByDate_chronological.
  - rewrite !sortByDate_perm. exact Hp.
  - eapply Permutation_NoDup; [| exact Hnd].
    apply Permutation_map, Permutation_sym, sortByDate_perm.
Qed.

(** When no two records have the same timestamp, the order in which the
    records come in does not matter: the sort inside [groupRecords] makes
    the groups the same. *)
Theorem groupRecords_order_irrelevant (rs1 rs2 : list EyePressureRecord) :
  Permutation rs1 rs2 ->
  NoDup (map date rs1) ->
  groupRecords toLocaleDateString rs1 = groupRecords toLocaleDateString rs2.
Proof.
  intros Hp Hnd. unfold groupRecords.
  pose proof (Permutation_filter_same (fun r => is24h r) _ _ Hp) as Hc.
  pose proof (Permutation_filter_same (fun r => negb (is24h r)) _ _ Hp) as Hr.
  rewrite (Permutation_length Hc), (Permutation_length Hr).
  rewrite (sortByDate_perm_eq _ _ Hc (NoDup_map_filter _ _ Hnd)).
  rewrite (sortByDate_perm_eq _ _ Hr (NoDup_map_filter _ _ Hnd)).
  reflexivity.
Qed.

End GroupingLaws.

(** ** The fetch ([lib/notion.ts], [app/page.tsx]) *)

(** What a database query answers. *)
Record QueryResponse := {
  results : list Notion.Page;
  has_more : bool;
  next_cursor : option string
}.

(** A thrown value: an [Error] with its message, or something else. *)
Inductive Thrown :=
| ErrorObject (message : string)
| OtherValue.

Inductive result (A : Type) :=
| Ok (a : A)
| Err (e : Thrown).

Arguments Ok {A} a.
Arguments Err {A} e.

Section Fetch.

Variable Date_parse : string -> option Z.
Variable toLocaleDateString : Z -> string.

(** [notion.databases.query] on a database id and a start cursor. *)
Variable query : string -> option string -> result QueryResponse.

(** [response.has_more ? response.next_cursor ?? undefined : undefined] *)
Definition nextCursor (response : QueryResponse) : option string :=
  if has_more response then next_cursor response else None.

(** The [do ... while (cursor)] loop of [fetchAllRecords]; the loop may go
    on for ever, [None] is a run that needs more than [fuel] queries. *)
Fixpoint fetchLoop (fuel : nat) (databaseId : string) (cursor : option string)
    (records : list EyePressureRecord)
  : option (result (list EyePressureRecord)) :=
  match fuel with
  | O => None
  | S fuel' =>
      match query databaseId cursor with
      | Err e => Some (Err e)
      | Ok response =>
          let records := pushResults Date_parse (results response) records in
          let cursor := nextCursor response in
          if falsy cursor then Some (Ok records)
          else fetchLoop fuel' databaseId cursor records
      end
  end.

Definition fetchAllRecords (fuel : nat) (NOTION_DATABASE_ID : option string)
  : option (result (list EyePressureRecord)) :=
  if falsy NOTION_DATABASE_ID
  then Some (Err (ErrorObject "NOTION_DATABASE_ID is not set"))
  else fetchLoop fuel (or_empty NOTION_DATABASE_ID) None [].

(** The message of the [TypeError] that reading [records[0].date] of an
    empty group would throw. *)
Variable typeErrorMessage : string.

(** The data that [Home] hands to [MainContent]: the groups and the error
    message. *)
Definition Home (fuel : nat) (NOTION_DATABASE_ID NOTION_AUTH_TOKEN : option string)
  : option (list RecordGroup * option string) :=
  let groups := [] in
  let attempt :=
    if falsy NOTION_DATABASE_ID || falsy NOTION_AUTH_TOKEN
    then Some (Err (ErrorObject
                      "Missing Notion configuration in environment variables"))
    else
      fetched <- fetchAllRecords fuel NOTION_DATABASE_ID ;;
      match fetched with
      | Err e => Some (Err e)
      | Ok records =>
          match groupRecords toLocaleDateString records with
          | Some gs => Some (Ok gs)
          | None => Some (Err (ErrorObject typeErrorMessage))
          end
      end in
  outcome <- attempt ;;
  match outcome with
  | Ok gs => Some (gs, None)
  | Err (ErrorObject message) => Some (groups, Some message)
  | Err OtherValue => Some (groups, Some "Unknown error")
  end.

(** The responses that the loop receives from the cursor [cursor] on, up
    to the one that ends it. *)
Inductive visits (databaseId : string)
  : option string -> list QueryResponse -> Prop :=
| visits_last cursor response :
    query databaseId cursor = Ok response ->
    falsy (nextCursor response) = true ->
    visits databaseId cursor [response]
| visits_more cursor response rest :
    query databaseId cursor = Ok response ->
    falsy (nextCursor response) = false ->
    visits databaseId (nextCursor response) rest ->
    visits databaseId cursor (response :: rest).

(** The loop reaches a query that fails with [e]. *)
Inductive aborts (databaseId : string) : option string -> Thrown -> Prop :=
| aborts_now cursor e :
    query databaseId cursor = Err e ->
    aborts databaseId cursor e
| aborts_later cursor response e :
    query databaseId cursor = Ok response ->
    falsy (nextCursor response) = false ->
    aborts databaseId (nextCursor response) e ->
    aborts databaseId cursor e.

Lemma fetchLoop_visits databaseId cursor responses :
  visits databaseId cursor responses ->
  forall fuel records,
    (List.length responses <= fuel)%nat ->
    fetchLoop fuel databaseId cursor records =
    Some (Ok (pushResults Date_parse
                (List.concat (map results responses)) records)).
Proof.
  induction 1 as [cursor response Hq Hend | cursor response rest Hq Hgo _ IH];
    intros fuel records Hfuel.
  - destruct fuel as [|fuel]; [simpl in Hfuel; lia |].
    simpl. rewrite Hq, Hend, app_nil_r. reflexivity.
  - destruct fuel as [|fuel]; [simpl in Hfuel; lia |].
    simpl in *. rewrite Hq, Hgo, pushResults_app.
    apply IH. lia.
Qed.

Lemma fetchLoop_aborts databaseId cursor e :
  aborts databaseId cursor e ->
  exists n, forall fuel records,
    (n <= fuel)%nat ->
    fetchLoop fuel databaseId cursor records = Some (Err e).
Proof.
  induction 1 as [cursor e Hq | cursor response e Hq Hgo _ [n IH]].
  - exists 1%nat. intros [|fuel] records Hfuel; [lia |].
    simpl. now rewrite Hq.
  - exists (S n). intros [|fuel] records Hfuel; [lia |].
    simpl. rewrite Hq, Hgo. apply IH. lia.
Qed.

(** The fetch follows the cursors: with a database id, and responses that
    come to an end, it returns the records of the pages of all the
    responses, in the order of the responses and of their pages. *)
Theorem fetchAllRecords_all_pages (databaseId : string) responses :
  databaseId <> "" ->
  visits databaseId None responses ->
  forall fuel,
    (List.length responses <= fuel)%nat ->
    fetchAllRecords fuel (Some databaseId) =
    Some (Ok (pushResults Date_parse
                (List.concat (map results responses)) [])).
Proof.
  intros Hid Hv fuel Hfuel. unfold fetchAllRecords.
  destruct databaseId as [|c s]; [contradiction |].
  cbn [falsy or_empty]. now apply fetchLoop_visits.
Qed.

(** A query that fails makes the whole fetch fail with the same error: the
    records gathered from the responses before it are not returned. *)
Theorem fetchAllRecords_query_fails (databaseId : string) (e : Thrown) :
  databaseId <> "" ->
  aborts databaseId None e ->
  exists n, forall fuel,
    (n <= fuel)%nat ->
    fetchAllRecords fuel (Some databaseId) = Some (Err e).
Proof.
  intros Hid Ha. destruct (fetchLoop_aborts databaseId None e Ha) as [n Hn].
  exists n. intros fuel Hfuel. unfold fetchAllRecords.
  destruct databaseId as [|c s]; [contradiction |].
  cbn [falsy or_empty]. now apply Hn.
Qed.

(** Without the database id or without the token, [Home] shows its own
    configuration message and no group, and this does not depend on what
    the database would answer. *)
Theorem Home_missing_configuration (fuel : nat) (db token : option string) :
  falsy db = true \/ falsy token = true ->
  Home fuel db token =
  Some ([], Some "Missing Notion configuration in environment variables").
Proof.
  intros H. unfold Home.
  replace (falsy db || falsy token) with true; [reflexivity |].
  destruct H as [-> | ->]; [reflexivity | now rewrite orb_true_r].
Qed.

(** A query that fails leaves [Home] with no group and with the message
    of the error, or with "Unknown error" when what was thrown is no
    [Error]. *)
Theorem Home_query_fails (db token : string) (e : Thrown) :
  db <> "" -> token <> "" ->
  aborts db None e ->
  exists n, forall fuel,
    (n <= fuel)%nat ->
    Home fuel (Some db) (Some token) =
    Some ([], Some match e with
                   | ErrorObject message => message
                   | OtherValue => "Unknown error"
                   end).
Proof.
  intros Hdb Htok Ha.
  destruct (fetchLoop_aborts db None e Ha) as [n Hn].
  exists n. intros fuel Hfuel. unfold Home, fetchAllRecords.
  destruct db as [|c s]; [contradiction |].
  destruct token as [|c' s']; [contradiction |].
  cbn [falsy orb or_empty bind]. rewrite (Hn fuel [] Hfuel). cbn [bind].
  now destruct e.
Qed.

(** From the database to the screen: with the configuration in place and
    responses that come to an end, [Home] shows no error, and the groups it
    shows hold, between them, each record of each fetched page once. *)
Theorem Home_shows_every_record (db token : string) responses :
  db <> "" -> token <> "" ->
  visits db None responses ->
  forall fuel,
    (List.length responses <= fuel)%nat ->
    exists gs,
      Home fuel (Some db) (Some token) = Some (gs, None) /\
      Permutation
        (List.concat (map records gs))
        (pushResults Date_parse (List.concat (map results responses)) []).
Proof.
  intros Hdb Htok Hv fuel Hfuel.
  assert (Hf : fetchAllRecords fuel (Some db) =
               Some (Ok (pushResults Date_parse
                           (List.concat (map results responses)) []))).
  { unfold fetchAllRecords. destruct db as [|c s]; [contradiction |].
    cbn [falsy or_empty]. now apply fetchLoop_visits. }
  destruct (groupRecords_perm toLocaleDateString
              (pushResults Date_parse (List.concat (map results responses)) []))
    as (gs & Hg & Hp).
  exists gs. split; [| exact Hp].
  unfold Home. rewrite Hf.
  destruct db as [|c s]; [contradiction |].
  destruct token as [|c' s']; [contradiction |].
  cbn [falsy orb bind]. now rewrite Hg.
Qed.

End Fetch.

(** ** More on the record boundary *)

Section Boundary.

Variable Date_parse : string -> option Z.

(** The pages that the loop of the fetch turns into records. *)
Definition kept (page : Notion.Page) : bool :=
  match Notion.properties page with
  | Some props =>
      match s <- dateValue props ;; Date_parse s with
      | Some _ => negb (falsy (dateValue props))
      | None => false
      end
  | None => false
  end.

Lemma kept_iff (page : Notion.Page) :
  kept page = true <->
  exists r, transformNotionPage Date_parse page = Some r.
Proof.
  unfold kept, transformNotionPage, transformBody.
  destruct (Notion.properties page) as [props|].
  - destruct (dateValue props) as [s|]; cbn [falsy bind].
    + destruct s as [|c s]; cbn [negb].
      * destruct (Date_parse ""); split; try discriminate;
          intros (r & Hr); discriminate.
      * destruct (Date_parse (String c s)); split; eauto; try discriminate.
        intros (r & Hr). discriminate.
    + split; [discriminate | intros (r & Hr); discriminate].
  - split; [discriminate | intros (r & Hr); discriminate].
Qed.


Lemma transformNotionPage_id page r :
  transformNotionPage Date_parse page = Some r -> id r = Notion.id page.
Proof.
  unfold transformNotionPage, transformBody.
  destruct (Notion.properties page) as [props|]; [| discriminate].
  destruct (falsy (dateValue props)); [discriminate |].
  destruct (s <- dateValue props ;; Date_parse s); [| discriminate].
  now intros [= <-].
Qed.

Lemma pushResults_ids pages :
  forall acc,
    map id (pushResults Date_parse pages acc) =
    (map id acc ++ map Notion.id (filter kept pages))%list.
Proof.
  induction pages as [|p pages IH]; intros acc.
  - simpl. now rewrite app_nil_r.
  - cbn [pushResults filter]. rewrite IH.
    destruct (kept_iff p) as [Hk1 Hk2].
    destruct (kept p) eqn:Ek.
    + destruct (Hk1 eq_refl) as (r & Hr). rewrite Hr.
      destruct (Notion.properties p) eqn:Ep.
      * rewrite map_app, <- app_assoc. simpl.
        now rewrite (transformNotionPage_id p r Hr).
      * unfold kept in Ek. rewrite Ep in Ek. discriminate.
    + destruct (Notion.properties p); [| reflexivity].
      destruct (transformNotionPage Date_parse p) as [r|] eqn:Hr;
        [| reflexivity].
      assert (false = true) by (apply Hk2; eauto). discriminate.
Qed.

(** The records of a response come out in the order of its pages, one for
    each page that is kept and none for the others, each record under the
    id of its page. *)
Theorem pushResults_page_order (pages : list Notion.Page) :
  map id (pushResults Date_parse pages []) =
  map Notion.id (filter kept pages) /\
  (List.length (pushResults Date_parse pages []) <= List.length pages)%nat.
Proof.
  split.
  - apply pushResults_ids.
  - rewrite <- (length_map id (pushResults Date_parse pages [])).
    rewrite pushResults_ids. cbn [map app]. rewrite length_map.
    apply filter_length_le.
Qed.

End Boundary.

(** ** The axis of the chart ([components/PressureChart.tsx]) *)

(** Month of the year, 0 for January, of a cycle day. *)
Definition monthOfCycleDay (doe : Z) : Z :=
  let yoe := (doe - doe / 1460 + doe / 36524 - doe / 146096) / 365 in
  let doy := doe - (365 * yoe + yoe / 4 - yoe / 100) in
  let mp := (5 * doy + 2) / 153 in
  if mp <? 10 then mp + 2 else mp - 10.

Definition MonthFromTime (t : Z) : Z := monthOfCycleDay (cycleDay (Day t)).

(** A [Map<number, string>]: [set] overwrites the value of a key that is
    there and adds a key that is not. *)
Fixpoint Map_set (key : Z) (value : string) (map : list (Z * string))
  : list (Z * string) :=
  match map with
  | [] => [(key, value)]
  | (k, v) :: map' =>
      if k =? key then (key, value) :: map'
      else (k, v) :: Map_set key value map'
  end.

Fixpoint Map_get (key : Z) (map : list (Z * string)) : option string :=
  match map with
  | [] => None
  | (k, v) :: map' => if k =? key then Some v else Map_get key map'
  end.

(** [Math.max(...(x :: xs))] *)
Definition Math_max (x : Z) (xs : list Z) : Z := fold_left Z.max xs x.

Section Axis.

Variable LocalTZA : Z -> Z.

Definition getMonth (t : Z) : Z := MonthFromTime (LocalTime LocalTZA t).

Definition labelMap (is24h : bool) (data : list ChartDataPoint)
  : list (Z * string) :=
  fold_left
    (fun map d =>
       match minutesFromStart d with
       | Some minutesFromStart =>
           let date := dateStr d in
           if is24h then
             let hours :=
               padStart (Number_toString (getHours LocalTZA date)) 2 "0" in
             let minutes :=
               padStart (Number_toString (getMinutes LocalTZA date)) 2 "0" in
             let firstDate :=
               match nth_error data 0 with
               | Some d0 => dateStr d0
               | None => date
               end in
             let dayDiff :=
               negb (getDate LocalTZA date =? getDate LocalTZA firstDate) in
             Map_set minutesFromStart
               (if dayDiff then "+1 " ++ hours ++ ":" ++ minutes
                else hours ++ ":" ++ minutes)
               map
           else
             let month :=
               padStart (Number_toString (getMonth date + 1)) 2 "0" in
             let day :=
               padStart (Number_toString (getDate LocalTZA date)) 2 "0" in
             Map_set minutesFromStart (month ++ "/" ++ day) map
       | None => map
       end)
    data [].

(** The [for] loop of [xAxisTicks]; [None] when [fuel] rounds do not reach
    its end. *)
Fixpoint ticksLoop (fuel : nat) (m maxMinutes : Z) (ticks : list Z)
  : option (list Z) :=
  match fuel with
  | O => None
  | S fuel' =>
      if m <=? maxMinutes + 60
      then ticksLoop fuel' (m + 120) maxMinutes (ticks ++ [m])%list
      else Some ticks
  end.

(** [xAxisTicks]: [Some None] is [undefined]. *)
Definition xAxisTicks (fuel : nat) (is24h : bool) (data : list ChartDataPoint)
  : option (option (list Z)) :=
  match map (fun d => nullish (minutesFromStart d) 0) data with
  | [] => Some None
  | m0 :: ms =>
      let minuteValues := m0 :: ms in
      let maxMinutes := Math_max m0 ms in
      if is24h then
        ticks <- ticksLoop fuel 0 maxMinutes [] ;; Some (Some ticks)
      else
        Some (Some (fold_left (fun ticks m => ticks ++ [m])%list
                              minuteValues []))
  end.

Definition xAxisTickFormatter (is24h : bool) (data : list ChartDataPoint)
    (value : Z) : string :=
  or_empty (Map_get value (labelMap is24h data)).

End Axis.

Lemma Map_get_set_same key value map :
  Map_get key (Map_set key value map) = Some value.
Proof.
  induction map as [|[k v] map IH]; simpl.
  - now rewrite Z.eqb_refl.
  - destruct (Z.eqb_spec k key) as [-> | Hne]; simpl.
    + now rewrite Z.eqb_refl.
    + destruct (Z.eqb_spec k key); [contradiction | exact IH].
Qed.

Lemma Map_get_set_other key key' value map :
  key <> key' -> Map_get key (Map_set key' value map) = Map_get key map.
Proof.
  intros Hne. induction map as [|[k v] map IH]; simpl.
  - destruct (Z.eqb_spec key' key); [congruence | reflexivity].
  - destruct (Z.eqb_spec k key') as [-> | Hk]; simpl.
    + destruct (Z.eqb_spec key' key); [congruence | reflexivity].
    + destruct (Z.eqb_spec k key); [reflexivity | exact IH].
Qed.

Section MapFold.

Variable f : ChartDataPoint -> string.

Definition put (map : list (Z * string)) (d : ChartDataPoint) :=
  match minutesFromStart d with
  | Some m => Map_set m (f d) map
  | None => map
  end.

Lemma fold_put_absent key data :
  forall map,
    Forall (fun d => minutesFromStart d <> Some key) data ->
    Map_get key (fold_left put data map) = Map_get key map.
Proof.
  induction data as [|d data IH]; intros map Hall; [reflexivity |].
  apply Forall_cons_iff in Hall. destruct Hall as [Hd Hall].
  simpl. rewrite (IH _ Hall). unfold put.
  destruct (minutesFromStart d) as [m|]; [| reflexivity].
  apply Map_get_set_other. congruence.
Qed.

Lemma fold_put_last key before p after :
  forall map,
    minutesFromStart p = Some key ->
    Forall (fun d => minutesFromStart d <> Some key) after ->
    Map_get key (fold_left put (before ++ p :: after) map) = Some (f p).
Proof.
  intros map Hp Hafter. rewrite fold_left_app. simpl.
  rewrite (fold_put_absent key after _ Hafter). unfold put at 1.
  rewrite Hp. apply Map_get_set_same.
Qed.

End MapFold.

Lemma fold_left_pointwise {A B : Type} (f g : A -> B -> A) l :
  (forall a b, f a b = g a b) ->
  forall a, fold_left f l a = fold_left g l a.
Proof.
  intros H. induction l as [|x l IH]; intros a; simpl.
  - reflexivity.
  - now rewrite H, IH.
Qed.

Section AxisLaws.

Variable LocalTZA : Z -> Z.
Variable toLocaleDateString : Z -> string.

(** The label that [labelMap] stores for a point. *)
Definition tickLabel (is24h : bool) (data : list ChartDataPoint)
    (d : ChartDataPoint) : string :=
  let date := dateStr d in
  if is24h then
    let firstDate :=
      match nth_error data 0 with
      | Some d0 => dateStr d0
      | None => date
      end in
    if negb (getDate LocalTZA date =? getDate LocalTZA firstDate)
    then "+1 " ++ formatTime LocalTZA date
    else formatTime LocalTZA date
  else
    padStart (Number_toString (getMonth LocalTZA date + 1)) 2 "0" ++ "/" ++
    padStart (Number_toString (getDate LocalTZA date)) 2 "0".

Lemma labelMap_put is24h data :
  labelMap LocalTZA is24h data =
  fold_left (put (tickLabel is24h data)) data [].
Proof.
  unfold labelMap. apply fold_left_pointwise.
  intros map d. unfold put, tickLabel, formatTime.
  destruct (minutesFromStart d); [| reflexivity].
  destruct is24h; reflexivity.
Qed.

(** A tick that is the minute of no point gets the empty label: on the
    time scale, only the ticks that fall on a point are labelled. *)
Theorem xAxisTickFormatter_off_point (is24h : bool)
    (data : list ChartDataPoint) (value : Z) :
  Forall (fun d => minutesFromStart d <> Some value) data ->
  xAxisTickFormatter LocalTZA is24h data value = "".
Proof.
  intros H. unfold xAxisTickFormatter.
  now rewrite labelMap_put, fold_put_absent.
Qed.

Lemma or_empty_Some s : or_empty (Some s) = s.
Proof. now destruct s. Qed.

(** On the chart of a continuous group, the tick at the minute of a
    record shows the label that [toChartData] gave to the last point at
    that minute: to the point of the record itself when no later point
    rounds to the same minute. *)
Theorem xAxisTickFormatter_toChartData (g : RecordGroup)
    (before after : list ChartDataPoint) (p : ChartDataPoint) (m : Z) :
  type g = T24h ->
  toChartData LocalTZA toLocaleDateString g = (before ++ p :: after)%list ->
  minutesFromStart p = Some m ->
  Forall (fun d => minutesFromStart d <> Some m) after ->
  xAxisTickFormatter LocalTZA true
    (toChartData LocalTZA toLocaleDateString g) m = label p.
Proof.
  intros Hty Hdata Hm Hafter. unfold xAxisTickFormatter.
  rewrite labelMap_put. rewrite Hdata at 2.
  rewrite (fold_put_last _ m before p after [] Hm Hafter), or_empty_Some.
  destruct (records g) as [|first rest] eqn:E.
  - rewrite (toChartData_nil LocalTZA toLocaleDateString g E) in Hdata.
    destruct before; discriminate.
  - rewrite (toChartData_map LocalTZA toLocaleDateString g first rest E) in *.
    rewrite E in *. cbn [map nth_error] in *.
    assert (In p (map (chartPoint LocalTZA toLocaleDateString (type g)
                         (date first)) (first :: rest))) as Hin.
    { cbn [map]. rewrite Hdata. apply in_elt. }
    apply in_map_iff in Hin. destruct Hin as (r & <- & _).
    unfold tickLabel. cbn [nth_error dateStr chartPoint label].
    now rewrite Hty.
Qed.

End AxisLaws.

Lemma ticksLoop_run maxMinutes (k : nat) :
  forall fuel m ticks,
    maxMinutes + 60 < m + 120 * Z.of_nat k ->
    ((0 < k)%nat -> m + 120 * (Z.of_nat k - 1) <= maxMinutes + 60) ->
    (k < fuel)%nat ->
    ticksLoop fuel m maxMinutes ticks =
    Some (ticks ++ map (fun i => m + 120 * Z.of_nat i) (seq 0 k))%list.
Proof.
  induction k as [|k IH]; intros fuel m ticks Hhi Hlo Hfuel;
    (destruct fuel as [|fuel]; [lia |]); cbn [ticksLoop].
  - destruct (Z.leb_spec m (maxMinutes + 60)); [lia |].
    simpl. now rewrite app_nil_r.
  - specialize (Hlo ltac:(lia)).
    destruct (Z.leb_spec m (maxMinutes + 60)); [| lia].
    rewrite (IH fuel (m + 120) (ticks ++ [m])%list) by lia.
    rewrite <- app_assoc. cbn [seq map app]. do 3 f_equal.
    + lia.
    + rewrite <- seq_shift, map_map. apply map_ext. intros i. lia.
Qed.

Lemma Math_max_upper xs :
  forall x, x <= Math_max x xs /\ Forall (fun y => y <= Math_max x xs) xs.
Proof.
  unfold Math_max. induction xs as [|y ys IH]; intros x; simpl.
  - split; [lia | constructor].
  - destruct (IH (Z.max x y)) as [H1 H2]. split; [lia |].
    constructor; [lia | exact H2].
Qed.

Lemma fold_left_push {A : Type} (l : list A) :
  forall acc, fold_left (fun ticks m => ticks ++ [m])%list l acc = (acc ++ l)%list.
Proof.
  induction l as [|x l IH]; intros acc; simpl.
  - now rewrite app_nil_r.
  - now rewrite IH, <- app_assoc.
Qed.

(** The minute of a point on the axis: [d.minutesFromStart || 0]. *)
Definition minuteOf (d : ChartDataPoint) : Z := nullish (minutesFromStart d) 0.

(** The ticks of the time axis of a continuous chart are the multiples of
    two hours from zero on, as many as it takes for the last of them to be
    within an hour of the latest point: no point lies an hour or more past
    the last tick.  The loop that makes them ends.  For a regular chart the
    ticks are the minutes of the points, and without points there is no
    tick list. *)
Theorem xAxisTicks_every_two_hours (d0 : ChartDataPoint)
    (ds : list ChartDataPoint) (fuel : nat) :
  let maxMinutes := Math_max (minuteOf d0) (map minuteOf ds) in
  let count := Z.to_nat ((maxMinutes + 180) / 120) in
  (count < fuel)%nat ->
  xAxisTicks fuel true (d0 :: ds) =
    Some (Some (map (fun i => 120 * Z.of_nat i) (seq 0 count))) /\
  Forall (fun d => minuteOf d < 120 * Z.of_nat count - 60) (d0 :: ds) /\
  (0 <= maxMinutes -> 120 * (Z.of_nat count - 1) <= maxMinutes + 60) /\
  xAxisTicks fuel false (d0 :: ds) = Some (Some (map minuteOf (d0 :: ds))) /\
  xAxisTicks fuel true [] = Some None.
Proof.
  intros maxMinutes count Hfuel.
  assert (Hk : maxMinutes + 60 < 120 * Z.of_nat count /\
               ((0 < count)%nat ->
                120 * (Z.of_nat count - 1) <= maxMinutes + 60)).
  { unfold count.
    pose proof (Z.div_mod (maxMinutes + 180) 120 ltac:(lia)).
    pose proof (Z.mod_pos_bound (maxMinutes + 180) 120 ltac:(lia)).
    lia. }
  destruct Hk as [Hhi Hlo].
  pose proof (Math_max_upper (map minuteOf ds) (minuteOf d0)) as [Hm0 Hms].
  fold maxMinutes in Hm0, Hms.
  repeat split.
  - unfold xAxisTicks. cbn [map]. fold (minuteOf d0).
    change (map (fun d => nullish (minutesFromStart d) 0) ds)
      with (map minuteOf ds).
    fold maxMinutes.
    rewrite (ticksLoop_run maxMinutes count fuel 0 []) by (lia || assumption).
    reflexivity.
  - constructor; [lia |].
    rewrite Forall_map in Hms. eapply Forall_impl; [| exact Hms].
    cbv beta. intros d Hd. lia.
  - intros Hpos. apply Hlo. unfold count.
    pose proof (Z.div_mod (maxMinutes + 180) 120 ltac:(lia)).
    pose proof (Z.mod_pos_bound (maxMinutes + 180) 120 ltac:(lia)).
    lia.
  - unfold xAxisTicks. cbn [map]. now rewrite fold_left_push.
Qed.

Lemma monthOfCycleDay_range e :
  0 <= e < 146097 -> 0 <= monthOfCycleDay e <= 11.
Proof.
  intros H. unfold monthOfCycleDay. cbv zeta.
  destruct (Z.ltb_spec
              ((5 * (e - (365 * ((e - e / 1460 + e / 36524 - e / 146096) / 365)
                          + (e - e / 1460 + e / 36524 - e / 146096) / 365 / 4
                          - (e - e / 1460 + e / 36524 - e / 146096) / 365 / 100))
                + 2) / 153) 10) as [Hlt | Hge];
    revert H Hlt || revert H Hge; Z.div_mod_to_equations; lia.
Qed.

Section RegularAxis.

Variable LocalTZA : Z -> Z.

(** On the chart of the regular group a tick at the minute of a point is
    labelled with the month and the day of that point, two digits each,
    whatever the locale: not with the label that [toChartData] made. *)
Theorem xAxisTickFormatter_regular (before after : list ChartDataPoint)
    (p : ChartDataPoint) (m : Z) :
  minutesFromStart p = Some m ->
  Forall (fun d => minutesFromStart d <> Some m) after ->
  xAxisTickFormatter LocalTZA false (before ++ p :: after) m =
    two_digits (getMonth LocalTZA (dateStr p) + 1) ++ "/" ++
    two_digits (getDate LocalTZA (dateStr p)) /\
  1 <= getMonth LocalTZA (dateStr p) + 1 <= 12 /\
  1 <= getDate LocalTZA (dateStr p) <= 31.
Proof.
  intros Hm Hafter.
  assert (Hmonth : 0 <= getMonth LocalTZA (dateStr p) <= 11).
  { apply monthOfCycleDay_range. apply Z.mod_pos_bound. reflexivity. }
  assert (Hday : 1 <= getDate LocalTZA (dateStr p) <= 31)
    by apply dayOfMonth_next.
  split; [| split; [lia | exact Hday]].
  unfold xAxisTickFormatter. rewrite labelMap_put.
  rewrite (fold_put_last _ m before p after [] Hm Hafter), or_empty_Some.
  unfold tickLabel. rewrite !padStart_two_digits by lia. reflexivity.
Qed.

End RegularAxis.

(** ** From the groups to their charts *)

Section Pipeline.

Variable LocalTZA : Z -> Z.
Variable toLocaleDateString : Z -> string.

Hypothesis LocalTZA_within_a_day : forall t, - msPerDay <= LocalTZA t <= msPerDay.

Lemma getDate_same_day t t0 :
  Z.abs (t - t0) <= THIRTY_HOURS_MS ->
  (getDate LocalTZA t =? getDate LocalTZA t0) =
  (localDay LocalTZA t =? localDay LocalTZA t0).
Proof.
  intros Hwin.
  assert (Hiff : getDate LocalTZA t = getDate LocalTZA t0 <->
                 localDay LocalTZA t = localDay LocalTZA t0).
  { unfold getDate, DateFromTime, localDay. split; [| now intros ->].
    apply dayOfMonth_inj.
    pose proof (LocalTZA_within_a_day t).
    pose proof (LocalTZA_within_a_day t0).
    clear LocalTZA_within_a_day toLocaleDateString.
    unfold LocalTime, Day, msPerDay, THIRTY_HOURS_MS in *.
    Z.div_mod_to_equations. lia. }
  destruct (Z.eqb_spec (getDate LocalTZA t) (getDate LocalTZA t0));
    destruct (Z.eqb_spec (localDay LocalTZA t) (localDay LocalTZA t0));
    try reflexivity; tauto.
Qed.

(** The charts of the groups that [groupRecords] returns.  Every label is
    the one the design document asks for: in a continuous group the time
    of day, marked when the record is on another calendar day than the
    first one.  And in a continuous group every point lies between minute
    0 and minute 1800 of the group. *)
Theorem groupRecords_chart_points (rs : list EyePressureRecord) :
  returns (groupRecords toLocaleDateString rs) (fun gs =>
    forall g,
      In g gs ->
      labels_as_expected LocalTZA toLocaleDateString g /\
      (type g = T24h ->
       Forall (fun p => exists m, minutesFromStart p = Some m /\
                                  0 <= m <= 1800)
              (toChartData LocalTZA toLocaleDateString g))).
Proof.
  destruct (groupRecords_spec toLocaleDateString rs)
    as (conts & Hg & Hwf & _ & _).
  eexists. split; [exact Hg |].
  intros g Hin.
  assert (Hwin : type g = T24h ->
                 forall first, hd_error (records g) = Some first ->
                 Forall (fun r => 0 <= date r - date first <= THIRTY_HOURS_MS)
                        (records g)).
  { intros Hty first Hfirst.
    apply in_app_or in Hin. destruct Hin as [Hin | Hin].
    - unfold regularPart in Hin. destruct (_ <? _)%nat; [| contradiction].
      destruct Hin as [<- | []]. discriminate.
    - rewrite Forall_forall in Hwf.
      destruct (Hwf g Hin) as (_ & (f & Hf & Hw) & _).
      rewrite Hfirst in Hf. now injection Hf as <-. }
  split.
  - intros first i r Hfirst Hr.
    specialize (fun Hty => Hwin Hty first Hfirst).
    destruct (records g) as [|f rest] eqn:E; [discriminate |].
    injection Hfirst as ->.
    rewrite (toChartData_map LocalTZA toLocaleDateString g first rest E).
    rewrite E, nth_error_map, Hr.
    eexists. split; [reflexivity |].
    unfold chartPoint, expected_label. cbn [label].
    destruct (type g); [| reflexivity].
    rewrite formatTime_two_digits.
    specialize (Hwin eq_refl). rewrite Forall_forall in Hwin.
    rewrite getDate_same_day
      by (pose proof (Hwin r (nth_error_In _ _ Hr)); lia).
    now destruct (localDay LocalTZA (date r) =? localDay LocalTZA (date first)).
  - intros Hty. specialize (Hwin Hty).
    destruct (records g) as [|first rest] eqn:E.
    + rewrite (toChartData_nil LocalTZA toLocaleDateString g E). constructor.
    + rewrite (toChartData_map LocalTZA toLocaleDateString g first rest E).
      rewrite E, Forall_map. specialize (Hwin first eq_refl).
      eapply Forall_impl; [| exact Hwin].
      cbv beta. intros r Hr. eexists. split; [reflexivity |].
      change (Math_round (double_div (double_sub (date r) (date first)) 60000))
        with (minutesBetween (date r) (date first)).
      rewrite minutesBetween_exact
        by (unfold THIRTY_HOURS_MS in Hr; change (2 ^ 53) with 9007199254740992;
            lia).
      clear - Hr. unfold Math_round_div, THIRTY_HOURS_MS in *.
      pose proof (Z.div_mod (2 * (date r - date first) + 60000) (2 * 60000)
                    ltac:(lia)).
      pose proof (Z.mod_pos_bound (2 * (date r - date first) + 60000)
                    (2 * 60000) ltac:(lia)).
      lia.
Qed.

End Pipeline.

(** ** Concrete runs of the fetch and of the axis *)

Lemma groupRecords_single_window_witness :
  (exists r, In r sample_records /\ is24h r = true) /\
  (forall a b, In a sample_records -> In b sample_records ->
               is24h a = true -> is24h b = true ->
               date b - date a <= THIRTY_HOURS_MS) /\
  returns (groupRecords day_number_locale sample_records) (fun gs =>
    exists g,
      filter is_24h_group gs = [g] /\
      records g = sortByDate (filter (fun r => is24h r) sample_records)).
Proof.
  assert (H1 : exists r, In r sample_records /\ is24h r = true).
  { exists (reading "a" (5 * hour) true). split; [now left | reflexivity]. }
  assert (H2 : forall a b, In a sample_records -> In b sample_records ->
               is24h a = true -> is24h b = true ->
               date b - date a <= THIRTY_HOURS_MS).
  { intros a b Ha Hb Hca Hcb. simpl in Ha, Hb.
    destruct Ha as [<- | [<- | [<- | [<- | []]]]];
      destruct Hb as [<- | [<- | [<- | [<- | []]]]];
      try (vm_compute in Hca; discriminate);
      try (vm_compute in Hcb; discriminate);
      vm_compute; discriminate. }
  split; [exact H1 |]. split; [exact H2 |].
  exact (groupRecords_single_window day_number_locale sample_records H1 H2).
Defined.

Definition sample_records_swapped : list EyePressureRecord :=
  [reading "r2" (900 * hour) false; reading "a" (5 * hour) true;
   reading "r1" (2 * hour) false; reading "b" (6 * hour) true].

Lemma groupRecords_order_irrelevant_witness :
  Permutation sample_records sample_records_swapped /\
  NoDup (map date sample_records) /\
  groupRecords day_number_locale sample_records =
  groupRecords day_number_locale sample_records_swapped.
Proof.
  assert (H1 : Permutation sample_records sample_records_swapped)
    by apply perm_swap.
  assert (H2 : NoDup (map date sample_records)).
  { repeat (constructor;
            [simpl; unfold hour; intros H;
             repeat (destruct H as [H | H]; [discriminate |]); exact H |]).
    constructor. }
  split; [exact H1 |]. split; [exact H2 |].
  exact (groupRecords_order_irrelevant day_number_locale _ _ H1 H2).
Defined.

(** A host that parses one date string. *)
Definition sample_parse (s : string) : option Z :=
  if String.eqb s "2024-01-05T08:00:00.000Z" then Some 1704441600000
  else None.

Definition dated_page (i : string) (s : option string) : Notion.Page :=
  {| Notion.id := i;
     Notion.properties :=
       Some {| Notion.Date :=
                 Some {| Notion.date := Some {| Notion.start := s |} |};
               Notion.Name := None;
               Notion.Left := Some {| Notion.number := Some 17%float |};
               Notion.Right := None;
               Notion.is24h := None;
               Notion.Note := None |} |}.

Definition first_response : QueryResponse :=
  {| results := [dated_page "p1" (Some "2024-01-05T08:00:00.000Z");
                 dated_page "p2" None];
     has_more := true;
     next_cursor := Some "c1" |}.

Definition last_response : QueryResponse :=
  {| results := [dated_page "p3" (Some "yesterday")];
     has_more := false;
     next_cursor := None |}.

(** A database of two responses. *)
Definition sample_query (databaseId : string) (cursor : option string)
  : result QueryResponse :=
  match cursor with
  | None => Ok first_response
  | Some c =>
      if String.eqb c "c1" then Ok last_response
      else Err (ErrorObject "invalid cursor")
  end.

(** A database that fails on its second query. *)
Definition failing_query (databaseId : string) (cursor : option string)
  : result QueryResponse :=
  match cursor with
  | None => Ok first_response
  | Some _ => Err (ErrorObject "rate limited")
  end.

Lemma sample_visits :
  visits sample_query "db" None [first_response; last_response].
Proof.
  eapply visits_more; [reflexivity | reflexivity |].
  apply visits_last; reflexivity.
Defined.

Lemma failing_aborts :
  aborts failing_query "db" None (ErrorObject "rate limited").
Proof.
  eapply aborts_later; [reflexivity | reflexivity |].
  apply aborts_now. reflexivity.
Defined.

Lemma fetchAllRecords_all_pages_witness :
  "db" <> "" /\
  visits sample_query "db" None [first_response; last_response] /\
  (List.length [first_response; last_response] <= 5)%nat /\
  fetchAllRecords sample_parse sample_query 5 (Some "db") =
  Some (Ok (pushResults sample_parse
              (List.concat (map results [first_response; last_response]))
              [])).
Proof.
  assert (H1 : "db" <> "") by discriminate.
  assert (H3 : (List.length [first_response; last_response] <= 5)%nat)
    by (simpl; lia).
  split; [exact H1 |]. split; [exact sample_visits |]. split; [exact H3 |].
  exact (fetchAllRecords_all_pages sample_parse sample_query "db" _
           H1 sample_visits 5%nat H3).
Defined.

Lemma fetchAllRecords_query_fails_witness :
  "db" <> "" /\
  aborts failing_query "db" None (ErrorObject "rate limited") /\
  exists n, forall fuel,
    (n <= fuel)%nat ->
    fetchAllRecords sample_parse failing_query fuel (Some "db") =
    Some (Err (ErrorObject "rate limited")).
Proof.
  assert (H1 : "db" <> "") by discriminate.
  split; [exact H1 |]. split; [exact failing_aborts |].
  exact (fetchAllRecords_query_fails sample_parse failing_query "db" _
           H1 failing_aborts).
Defined.

Lemma Home_missing_configuration_witness :
  (falsy None = true \/ falsy (Some "secret") = true) /\
  Home sample_parse day_number_locale sample_query "" 5 None (Some "secret") =
  Some ([], Some "Missing Notion configuration in environment variables").
Proof.
  assert (H : falsy None = true \/ falsy (Some "secret") = true)
    by (left; reflexivity).
  split; [exact H |].
  exact (Home_missing_configuration sample_parse day_number_locale
           sample_query "" 5 None (Some "secret") H).
Defined.

Lemma Home_query_fails_witness :
  "db" <> "" /\ "secret" <> "" /\
  aborts failing_query "db" None (ErrorObject "rate limited") /\
  exists n, forall fuel,
    (n <= fuel)%nat ->
    Home sample_parse day_number_locale failing_query "" fuel
         (Some "db") (Some "secret") =
    Some ([], Some "rate limited").
Proof.
  assert (H1 : "db" <> "") by discriminate.
  assert (H2 : "secret" <> "") by discriminate.
  split; [exact H1 |]. split; [exact H2 |]. split; [exact failing_aborts |].
  exact (Home_query_fails sample_parse day_number_locale failing_query ""
           "db" "secret" _ H1 H2 failing_aborts).
Defined.

Lemma Home_shows_every_record_witness :
  "db" <> "" /\ "secret" <> "" /\
  visits sample_query "db" None [first_response; last_response] /\
  (List.length [first_response; last_response] <= 5)%nat /\
  exists gs,
    Home sample_parse day_number_locale sample_query "" 5
         (Some "db") (Some "secret") = Some (gs, None) /\
    Permutation
      (List.concat (map records gs))
      (pushResults sample_parse
         (List.concat (map results [first_response; last_response])) []).
Proof.
  assert (H1 : "db" <> "") by discriminate.
  assert (H2 : "secret" <> "") by discriminate.
  assert (H4 : (List.length [first_response; last_response] <= 5)%nat)
    by (simpl; lia).
  split; [exact H1 |]. split; [exact H2 |]. split; [exact sample_visits |].
  split; [exact H4 |].
  exact (Home_shows_every_record sample_parse day_number_locale sample_query
           "" "db" "secret" _ H1 H2 sample_visits 5%nat H4).
Defined.

Definition sample_chart : list ChartDataPoint :=
  toChartData utc day_number_locale sample_day.

Lemma xAxisTickFormatter_off_point_witness :
  Forall (fun d => minutesFromStart d <> Some 120) sample_chart /\
  xAxisTickFormatter utc true sample_chart 120 = "".
Proof.
  assert (H : Forall (fun d => minutesFromStart d <> Some 120) sample_chart)
    by (repeat constructor; vm_compute; discriminate).
  split; [exact H |].
  exact (xAxisTickFormatter_off_point utc true sample_chart 120 H).
Defined.

Lemma xAxisTickFormatter_toChartData_witness :
  type sample_day = T24h /\
  toChartData utc day_number_locale sample_day =
    ([] ++ hd (mkPoint "" 0 0 0 0 None) sample_chart :: tl sample_chart)%list /\
  minutesFromStart (hd (mkPoint "" 0 0 0 0 None) sample_chart) = Some 0 /\
  Forall (fun d => minutesFromStart d <> Some 0) (tl sample_chart) /\
  xAxisTickFormatter utc true (toChartData utc day_number_locale sample_day) 0
  = label (hd (mkPoint "" 0 0 0 0 None) sample_chart).
Proof.
  assert (H4 : Forall (fun d => minutesFromStart d <> Some 0) (tl sample_chart))
    by (repeat constructor; vm_compute; discriminate).
  split; [reflexivity |]. split; [reflexivity |]. split; [reflexivity |].
  split; [exact H4 |].
  exact (xAxisTickFormatter_toChartData utc day_number_locale sample_day
           [] (tl sample_chart) (hd (mkPoint "" 0 0 0 0 None) sample_chart) 0
           eq_refl eq_refl eq_refl H4).
Defined.

Lemma xAxisTicks_every_two_hours_witness :
  xAxisTicks 20 true sample_chart =
  Some (Some [0; 120; 240; 360; 480; 600; 720; 840; 960; 1080; 1200; 1320;
              1440; 1560]).
Proof.
  assert (H : (Z.to_nat
                 ((Math_max (minuteOf (hd (mkPoint "" 0 0 0 0 None) sample_chart))
                            (map minuteOf (tl sample_chart)) + 180) / 120)
               < 20)%nat)
    by (apply Nat.ltb_lt; vm_compute; reflexivity).
  exact (proj1 (xAxisTicks_every_two_hours
                  (hd (mkPoint "" 0 0 0 0 None) sample_chart)
                  (tl sample_chart) 20 H)).
Defined.

Lemma groupRecords_chart_points_witness :
  (forall t, - msPerDay <= utc t <= msPerDay) /\
  returns (groupRecords day_number_locale sample_records) (fun gs =>
    forall g,
      In g gs ->
      labels_as_expected utc day_number_locale g /\
      (type g = T24h ->
       Forall (fun p => exists m, minutesFromStart p = Some m /\
                                  0 <= m <= 1800)
              (toChartData utc day_number_locale g))).
Proof.
  assert (H : forall t, - msPerDay <= utc t <= msPerDay)
    by (intros t; unfold utc, msPerDay; lia).
  split; [exact H |].
  exact (groupRecords_chart_points utc day_number_locale H sample_records).
Defined.

Lemma xAxisTickFormatter_regular_witness :
  minutesFromStart (hd (mkPoint "" 0 0 0 0 None) sample_chart) = Some 0 /\
  Forall (fun d => minutesFromStart d <> Some 0) (tl sample_chart) /\
  xAxisTickFormatter utc false
    ([] ++ hd (mkPoint "" 0 0 0 0 None) sample_chart :: tl sample_chart) 0
  = "01/01".
Proof.
  assert (H2 : Forall (fun d => minutesFromStart d <> Some 0) (tl sample_chart))
    by (repeat constructor; vm_compute; discriminate).
  split; [reflexivity |]. split; [exact H2 |].
  exact (proj1 (xAxisTickFormatter_regular utc [] (tl sample_chart)
                  (hd (mkPoint "" 0 0 0 0 None) sample_chart) 0 eq_refl H2)).
Defined.
